(** * toska-mesh-go: the Go runtime SDK (package [runtime])

    A shallow embedding of [pkg/runtime/options.go],
    [pkg/runtime/mesh.go] and the helpers of
    [examples/hello-mesh-service/main.go], and the properties of the
    configuration resolver ([New]), the metadata builder ([buildMetadata])
    and the lifecycle orchestrator ([start], [register], [deregister],
    [heartbeatLoop], [sendHeartbeat]).

    Go values are modelled as follows.
    - [int] and [time.Duration] are [Z]; [int32(x)] is written out with its
      wrap-around ([to_int32]).
    - [string] is [string]; [map[string]string] is [gmap string string].
    - [error] is the inductive [error]; a [nil] error is [None].
    - goroutines, channels and the context are the components of the
      record [state]; one scheduling decision is one [action]. *)

From Stdlib Require Import ZArith String Ascii DecimalString DecimalZ
  DecimalPos.
From stdpp Require Import gmap strings list fin_maps.

Open Scope Z_scope.
Open Scope string_scope.

(** ** Go library functions used by the package *)

Module strconv.

(** [strconv.Itoa]: the decimal representation, with a leading [-] for
    negative numbers. *)
Definition Itoa (i : Z) : string := NilZero.string_of_int (Z.to_int i).

(** The two errors of [strconv]: [ErrSyntax] and [ErrRange]. *)
Inductive NumError := ErrSyntax | ErrRange.

(** The value of a decimal digit; [None] for any other byte. *)
Definition digit (c : ascii) : option Z :=
  let d := Z.of_N (N_of_ascii c) - 48 in
  if ((0 <=? d) && (d <=? 9))%Z then Some d else None.

Definition maxUint64 : Z := 2 ^ 64 - 1.

(** The loop of [ParseUint] in base 10 with 64 bits, [n] the number read
    so far: a byte that is not a digit is a syntax error, a number that
    leaves 64 bits a range error with the largest value. *)
Fixpoint ParseUint_loop (s : string) (n : Z) : Z * option NumError :=
  match s with
  | EmptyString => (n, None)
  | String c s' =>
      match digit c with
      | None => (0, Some ErrSyntax)
      | Some d =>
          if (n >=? maxUint64 / 10 + 1)%Z then (maxUint64, Some ErrRange)
          else
            let n1 := n * 10 + d in
            if (n1 >? maxUint64)%Z then (maxUint64, Some ErrRange)
            else ParseUint_loop s' n1
      end
  end.

(** [strconv.ParseUint(s, 10, 0)]. *)
Definition ParseUint (s : string) : Z * option NumError :=
  match s with
  | EmptyString => (0, Some ErrSyntax)
  | _ => ParseUint_loop s 0
  end.

(** [strconv.ParseInt(s, 10, 0)] where [int] has 64 bits: an optional
    sign, [+] or [-], then the unsigned number, which has to fit. *)
Definition ParseInt (s : string) : Z * option NumError :=
  match s with
  | EmptyString => (0, Some ErrSyntax)
  | String c s' =>
      let '(neg, s1) :=
        if Ascii.eqb c "+" then (false, s')
        else if Ascii.eqb c "-" then (true, s')
        else (false, s) in
      match ParseUint s1 with
      | (_, Some ErrSyntax) => (0, Some ErrSyntax)
      | (un, _) =>
          if (negb neg && (un >=? 2 ^ 63)%Z)%bool
          then (2 ^ 63 - 1, Some ErrRange)
          else if (neg && (un >? 2 ^ 63)%Z)%bool
          then (- 2 ^ 63, Some ErrRange)
          else (if neg then - un else un, None)
      end
  end.

(** [strconv.Atoi]: "equivalent to ParseInt(s, 10, 0), converted to type
    int". It returns the value together with the error. *)
Definition Atoi (s : string) : Z * option NumError := ParseInt s.

End strconv.

(** [int32(x)] for an [int] x: the low 32 bits, read as a signed number. *)
Definition to_int32 (x : Z) : Z := (x + 2 ^ 31) mod 2 ^ 32 - 2 ^ 31.

(** ** options.go *)

Definition Duration := Z.
Definition Second : Duration := 1000000000.

(** [type LoadBalancingStrategy string] *)
Definition LoadBalancingStrategy := string.

Definition RoundRobin : LoadBalancingStrategy := "RoundRobin".
Definition LeastConnections : LoadBalancingStrategy := "LeastConnections".
Definition Random : LoadBalancingStrategy := "Random".
Definition WeightedRoundRobin : LoadBalancingStrategy := "WeightedRoundRobin".
Definition IPHash : LoadBalancingStrategy := "IPHash".

Record RoutingOptions := {
  Scheme : string;
  HealthCheckEndpoint : string;
  Strategy : LoadBalancingStrategy;
  Weight : Z
}.

Record ServiceOptions := {
  ServiceName : string;
  ServiceID : string;
  Address : string;
  AdvertisedAddress : string;
  Port : Z;
  HealthEndpoint : string;
  HealthInterval : Duration;
  HealthTimeout : Duration;
  UnhealthyThreshold : Z;
  HeartbeatEnabled : bool;
  AutoRegister : bool;
  DiscoveryAddress : string;
  Metadata : gmap string string;
  Routing : RoutingOptions
}.

(** Field assignments [o.F = v]. *)
Section setters.
Variable o : ServiceOptions.

Definition set_ServiceName (v : string) : ServiceOptions :=
  {| ServiceName := v; ServiceID := ServiceID o; Address := Address o;
     AdvertisedAddress := AdvertisedAddress o; Port := Port o;
     HealthEndpoint := HealthEndpoint o; HealthInterval := HealthInterval o;
     HealthTimeout := HealthTimeout o;
     UnhealthyThreshold := UnhealthyThreshold o;
     HeartbeatEnabled := HeartbeatEnabled o; AutoRegister := AutoRegister o;
     DiscoveryAddress := DiscoveryAddress o; Metadata := Metadata o;
     Routing := Routing o |}.

Definition set_ServiceID (v : string) : ServiceOptions :=
  {| ServiceName := ServiceName o; ServiceID := v; Address := Address o;
     AdvertisedAddress := AdvertisedAddress o; Port := Port o;
     HealthEndpoint := HealthEndpoint o; HealthInterval := HealthInterval o;
     HealthTimeout := HealthTimeout o;
     UnhealthyThreshold := UnhealthyThreshold o;
     HeartbeatEnabled := HeartbeatEnabled o; AutoRegister := AutoRegister o;
     DiscoveryAddress := DiscoveryAddress o; Metadata := Metadata o;
     Routing := Routing o |}.

Definition set_Address (v : string) : ServiceOptions :=
  {| ServiceName := ServiceName o; ServiceID := ServiceID o; Address := v;
     AdvertisedAddress := AdvertisedAddress o; Port := Port o;
     HealthEndpoint := HealthEndpoint o; HealthInterval := HealthInterval o;
     HealthTimeout := HealthTimeout o;
     UnhealthyThreshold := UnhealthyThreshold o;
     HeartbeatEnabled := HeartbeatEnabled o; AutoRegister := AutoRegister o;
     DiscoveryAddress := DiscoveryAddress o; Metadata := Metadata o;
     Routing := Routing o |}.

Definition set_AdvertisedAddress (v : string) : ServiceOptions :=
  {| ServiceName := ServiceName o; ServiceID := ServiceID o;
     Address := Address o; AdvertisedAddress := v; Port := Port o;
     HealthEndpoint := HealthEndpoint o; HealthInterval := HealthInterval o;
     HealthTimeout := HealthTimeout o;
     UnhealthyThreshold := UnhealthyThreshold o;
     HeartbeatEnabled := HeartbeatEnabled o; AutoRegister := AutoRegister o;
     DiscoveryAddress := DiscoveryAddress o; Metadata := Metadata o;
     Routing := Routing o |}.

Definition set_Port (v : Z) : ServiceOptions :=
  {| ServiceName := ServiceName o; ServiceID := ServiceID o;
     Address := Address o; AdvertisedAddress := AdvertisedAddress o;
     Port := v;
     HealthEndpoint := HealthEndpoint o; HealthInterval := HealthInterval o;
     HealthTimeout := HealthTimeout o;
     UnhealthyThreshold := UnhealthyThreshold o;
     HeartbeatEnabled := HeartbeatEnabled o; AutoRegister := AutoRegister o;
     DiscoveryAddress := DiscoveryAddress o; Metadata := Metadata o;
     Routing := Routing o |}.

Definition set_HealthEndpoint (v : string) : ServiceOptions :=
  {| ServiceName := ServiceName o; ServiceID := ServiceID o;
     Address := Address o; AdvertisedAddress := AdvertisedAddress o;
     Port := Port o;
     HealthEndpoint := v; HealthInterval := HealthInterval o;
     HealthTimeout := HealthTimeout o;
     UnhealthyThreshold := UnhealthyThreshold o;
     HeartbeatEnabled := HeartbeatEnabled o; AutoRegister := AutoRegister o;
     DiscoveryAddress := DiscoveryAddress o; Metadata := Metadata o;
     Routing := Routing o |}.

Definition set_HealthInterval (v : Duration) : ServiceOptions :=
  {| ServiceName := ServiceName o; ServiceID := ServiceID o;
     Address := Address o; AdvertisedAddress := AdvertisedAddress o;
     Port := Port o;
     HealthEndpoint := HealthEndpoint o; HealthInterval := v;
     HealthTimeout := HealthTimeout o;
     UnhealthyThreshold := UnhealthyThreshold o;
     HeartbeatEnabled := HeartbeatEnabled o; AutoRegister := AutoRegister o;
     DiscoveryAddress := DiscoveryAddress o; Metadata := Metadata o;
     Routing := Routing o |}.

Definition set_HeartbeatEnabled (v : bool) : ServiceOptions :=
  {| ServiceName := ServiceName o; ServiceID := ServiceID o;
     Address := Address o; AdvertisedAddress := AdvertisedAddress o;
     Port := Port o;
     HealthEndpoint := HealthEndpoint o; HealthInterval := HealthInterval o;
     HealthTimeout := HealthTimeout o;
     UnhealthyThreshold := UnhealthyThreshold o;
     HeartbeatEnabled := v; AutoRegister := AutoRegister o;
     DiscoveryAddress := DiscoveryAddress o; Metadata := Metadata o;
     Routing := Routing o |}.

Definition set_AutoRegister (v : bool) : ServiceOptions :=
  {| ServiceName := ServiceName o; ServiceID := ServiceID o;
     Address := Address o; AdvertisedAddress := AdvertisedAddress o;
     Port := Port o;
     HealthEndpoint := HealthEndpoint o; HealthInterval := HealthInterval o;
     HealthTimeout := HealthTimeout o;
     UnhealthyThreshold := UnhealthyThreshold o;
     HeartbeatEnabled := HeartbeatEnabled o; AutoRegister := v;
     DiscoveryAddress := DiscoveryAddress o; Metadata := Metadata o;
     Routing := Routing o |}.

Definition set_DiscoveryAddress (v : string) : ServiceOptions :=
  {| ServiceName := ServiceName o; ServiceID := ServiceID o;
     Address := Address o; AdvertisedAddress := AdvertisedAddress o;
     Port := Port o;
     HealthEndpoint := HealthEndpoint o; HealthInterval := HealthInterval o;
     HealthTimeout := HealthTimeout o;
     UnhealthyThreshold := UnhealthyThreshold o;
     HeartbeatEnabled := HeartbeatEnabled o; AutoRegister := AutoRegister o;
     DiscoveryAddress := v; Metadata := Metadata o;
     Routing := Routing o |}.

Definition set_Metadata (v : gmap string string) : ServiceOptions :=
  {| ServiceName := ServiceName o; ServiceID := ServiceID o;
     Address := Address o; AdvertisedAddress := AdvertisedAddress o;
     Port := Port o;
     HealthEndpoint := HealthEndpoint o; HealthInterval := HealthInterval o;
     HealthTimeout := HealthTimeout o;
     UnhealthyThreshold := UnhealthyThreshold o;
     HeartbeatEnabled := HeartbeatEnabled o; AutoRegister := AutoRegister o;
     DiscoveryAddress := DiscoveryAddress o; Metadata := v;
     Routing := Routing o |}.

Definition set_Routing (v : RoutingOptions) : ServiceOptions :=
  {| ServiceName := ServiceName o; ServiceID := ServiceID o;
     Address := Address o; AdvertisedAddress := AdvertisedAddress o;
     Port := Port o;
     HealthEndpoint := HealthEndpoint o; HealthInterval := HealthInterval o;
     HealthTimeout := HealthTimeout o;
     UnhealthyThreshold := UnhealthyThreshold o;
     HeartbeatEnabled := HeartbeatEnabled o; AutoRegister := AutoRegister o;
     DiscoveryAddress := DiscoveryAddress o; Metadata := Metadata o;
     Routing := v |}.
End setters.

Definition set_Scheme (r : RoutingOptions) (v : string) : RoutingOptions :=
  {| Scheme := v; HealthCheckEndpoint := HealthCheckEndpoint r;
     Strategy := Strategy r; Weight := Weight r |}.
Definition set_HealthCheckEndpoint (r : RoutingOptions) (v : string)
  : RoutingOptions :=
  {| Scheme := Scheme r; HealthCheckEndpoint := v;
     Strategy := Strategy r; Weight := Weight r |}.
Definition set_Strategy (r : RoutingOptions) (v : LoadBalancingStrategy)
  : RoutingOptions :=
  {| Scheme := Scheme r; HealthCheckEndpoint := HealthCheckEndpoint r;
     Strategy := v; Weight := Weight r |}.
Definition set_Weight (r : RoutingOptions) (v : Z) : RoutingOptions :=
  {| Scheme := Scheme r; HealthCheckEndpoint := HealthCheckEndpoint r;
     Strategy := Strategy r; Weight := v |}.

(** The type [Option] is a function that receives a pointer to the options
    and updates them in place; here, a function from the options before to
    the options after. *)
Definition Option := ServiceOptions -> ServiceOptions.

Definition DefaultOptions : ServiceOptions :=
  {| ServiceName := "mesh-service";
     ServiceID := "";
     Address := "0.0.0.0";
     AdvertisedAddress := "";
     Port := 8080;
     HealthEndpoint := "/health";
     HealthInterval := 30 * Second;
     HealthTimeout := 5 * Second;
     UnhealthyThreshold := 3;
     HeartbeatEnabled := true;
     AutoRegister := true;
     DiscoveryAddress := "localhost:8080";
     Metadata := ∅;
     Routing := {| Scheme := "http"; HealthCheckEndpoint := "";
                   Strategy := RoundRobin; Weight := 1 |} |}.

Definition WithServiceName (name : string) : Option :=
  fun o => set_ServiceName o name.
Definition WithServiceID (id : string) : Option :=
  fun o => set_ServiceID o id.
Definition WithAddress (addr : string) : Option :=
  fun o => set_Address o addr.
Definition WithAdvertisedAddress (addr : string) : Option :=
  fun o => set_AdvertisedAddress o addr.
Definition WithPort (port : Z) : Option :=
  fun o => set_Port o port.
Definition WithHealthEndpoint (endpoint : string) : Option :=
  fun o => set_HealthEndpoint o endpoint.
Definition WithHealthInterval (d : Duration) : Option :=
  fun o => set_HealthInterval o d.
Definition WithHeartbeat (enabled : bool) : Option :=
  fun o => set_HeartbeatEnabled o enabled.
Definition WithAutoRegister (enabled : bool) : Option :=
  fun o => set_AutoRegister o enabled.
Definition WithDiscoveryAddress (addr : string) : Option :=
  fun o => set_DiscoveryAddress o addr.
Definition WithMetadata (key value : string) : Option :=
  fun o => set_Metadata o (<[key := value]> (Metadata o)).
Definition WithRoutingStrategy (s : LoadBalancingStrategy) : Option :=
  fun o => set_Routing o (set_Strategy (Routing o) s).
Definition WithRoutingWeight (w : Z) : Option :=
  fun o => set_Routing o (set_Weight (Routing o) w).
Definition WithRoutingScheme (scheme : string) : Option :=
  fun o => set_Routing o (set_Scheme (Routing o) scheme).

(** ** mesh.go: errors and the service value *)

(** The error values the package builds with [fmt.Errorf], and those it
    receives from its collaborators. *)
Inductive error :=
  | ErrServiceNameRequired
      (* "runtime: ServiceName is required" *)
  | ErrListen (addr : string) (cause : error)
      (* "runtime: listen %s: %w" *)
  | ErrConnectDiscovery (addr : string) (cause : error)
      (* "runtime: connect to discovery %s: %w" *)
  | ErrGrpcRegister (cause : error)
      (* "gRPC Register: %w" *)
  | ErrRegistrationRejected (msg : string)
      (* "registration rejected: %s" *)
  | ErrServerClosed
      (* http.ErrServerClosed *)
  | ErrExternal (msg : string)
      (* any other error of the operating system, net/http or gRPC *).

Inductive result (A : Type) :=
  | Ok (a : A)
  | Err (e : error).
Arguments Ok {A} a.
Arguments Err {A} e.

(** The fields of [MeshService] that carry data; [mux] and [logger] are
    collaborators, [mu] guards [boundAddr]. *)
Record MeshService := {
  opts : ServiceOptions;
  boundAddr : string
}.

(** The [for _, fn := range opts { fn(&o) }] loop of [New]. *)
Definition applyOptions (fns : list Option) (o : ServiceOptions)
  : ServiceOptions :=
  fold_left (fun acc fn => fn acc) fns o.

(** [New]. The clock reading [time.Now().UnixNano()] is the argument
    [now]. *)
Definition New (now : Z) (fns : list Option) : result MeshService :=
  let o := applyOptions fns DefaultOptions in
  if decide (ServiceName o = "") then Err ErrServiceNameRequired
  else
    let o :=
      if decide (ServiceID o = "")
      then set_ServiceID o (ServiceName o ++ "-" ++ strconv.Itoa now)
      else o in
    let o :=
      if decide (AdvertisedAddress o = "")
      then set_AdvertisedAddress o (Address o)
      else o in
    let o :=
      if decide (HealthCheckEndpoint (Routing o) = "")
      then set_Routing o
             (set_HealthCheckEndpoint (Routing o) (HealthEndpoint o))
      else o in
    Ok {| opts := o; boundAddr := "" |}.

(** [buildMetadata]. The [range] loop copies the user's entries into a
    fresh map one by one; the order of the iteration is the map's. *)
Definition buildMetadata (s : MeshService) : gmap string string :=
  let m : gmap string string :=
    map_fold (fun k v (m : gmap string string) => <[k := v]> m)
             ∅ (Metadata (opts s)) in
  let m := <["scheme" := Scheme (Routing (opts s))]> m in
  let m :=
    <["health_check_endpoint" := HealthCheckEndpoint (Routing (opts s))]> m in
  let m := <["lb_strategy" := Strategy (Routing (opts s))]> m in
  if decide (Weight (Routing (opts s)) > 0)
  then <["weight" := strconv.Itoa (Weight (Routing (opts s)))]> m
  else m.


(** ** Go library functions used by [start] *)

Module bytealg.

(** [IndexByteString]: the index of the first [c] in [s]. *)
Fixpoint IndexByteString (s : string) (c : ascii) : option nat :=
  match s with
  | EmptyString => None
  | String a s' =>
      if Ascii.eqb a c then Some 0%nat
      else match IndexByteString s' c with
           | Some i => Some (S i)
           | None => None
           end
  end.

(** [LastIndexByteString]: the index of the last [c] in [s]. *)
Fixpoint LastIndexByteString (s : string) (c : ascii) : option nat :=
  match s with
  | EmptyString => None
  | String a s' =>
      match LastIndexByteString s' c with
      | Some i => Some (S i)
      | None => if Ascii.eqb a c then Some 0%nat else None
      end
  end.

End bytealg.

(** The slice [s[i:]]. *)
Fixpoint slice_from (i : nat) (s : string) : string :=
  match i, s with
  | O, _ => s
  | S i', String _ s' => slice_from i' s'
  | S _, EmptyString => EmptyString
  end.

(** The slice [s[i:j]]. *)
Definition slice (i j : nat) (s : string) : string :=
  substring i (j - i) s.

Module net.

(** [net.JoinHostPort]: a host that contains a colon is put in brackets. *)
Definition JoinHostPort (host port : string) : string :=
  match bytealg.IndexByteString host ":" with
  | Some _ => "[" ++ host ++ "]:" ++ port
  | None => host ++ ":" ++ port
  end.

(** [hostport[0] == c] *)
Definition first_is (c : ascii) (s : string) : bool :=
  match s with
  | String a _ => Ascii.eqb a c
  | EmptyString => false
  end.

(** [net.SplitHostPort], statement by statement; [None] is any of its
    address errors. *)
Definition SplitHostPort (hostport : string) : option (string * string) :=
  match bytealg.LastIndexByteString hostport ":" with
  | None => None (* missing port in address *)
  | Some i =>
      let checked (host : string) (j k : nat) :=
        match bytealg.IndexByteString (slice_from j hostport) "[" with
        | Some _ => None (* unexpected '[' in address *)
        | None =>
            match bytealg.IndexByteString (slice_from k hostport) "]" with
            | Some _ => None (* unexpected ']' in address *)
            | None => Some (host, slice_from (S i) hostport)
            end
        end in
      if first_is "[" hostport then
        match bytealg.IndexByteString hostport "]" with
        | None => None (* missing ']' in address *)
        | Some end_ =>
            if Nat.eqb (S end_) (String.length hostport)
            then None (* missing port in address *)
            else if Nat.eqb (S end_) i
                 then checked (slice 1 end_ hostport) 1%nat (S end_)
                 else None (* too many colons, or missing port *)
        end
      else
        let host := slice 0 i hostport in
        match bytealg.IndexByteString host ":" with
        | Some _ => None (* too many colons in address *)
        | None => checked host 0%nat 0%nat
        end
  end.

End net.

(** ** The messages of the registry client (package [meshpb]) *)

Module pb.

Record HealthCheckConfig := {
  Endpoint : string;
  UnhealthyThreshold : Z
}.

(** [IntervalSeconds] and [TimeoutSeconds] go through [float64] in
    [register]; they are left out of the request. *)
Record RegisterServiceRequest := {
  ServiceName : string;
  ServiceId : string;
  Address : string;
  Port : Z;
  Metadata : gmap string string;
  HealthCheck : HealthCheckConfig
}.

Record RegisterServiceResponse := {
  Success : bool;
  AssignedId : string;
  ErrorMessage : string
}.

End pb.

(** ** Log records *)

Inductive level := LevelInfo | LevelWarn | LevelError.

(** ** What a run of [start] does, as seen from outside *)

Inductive event :=
  | EvListen (addr : string)              (* net.Listen("tcp", addr) *)
  | EvListenerClose                       (* ln.Close() *)
  | EvDial (target : string)              (* grpc.NewClient(target, ...) *)
  | EvRegister (req : pb.RegisterServiceRequest)
                                          (* client.Register(ctx, req) *)
  | EvLog (l : level) (msg : string)      (* s.logger.Info, Warn, Error *)
  | EvCancel                              (* ctx is cancelled *)
  | EvSelectDone                          (* start receives from ctx.Done() *)
  | EvSelectServerErr (e : option error)  (* start receives from serverErr *)
  | EvHeartbeat (cancelled : bool)
      (* sendHeartbeat calls client.ReportHealth with status HEALTHY;
         [cancelled] tells whether ctx was already cancelled *)
  | EvHeartbeatExit                       (* heartbeatLoop returns *)
  | EvDegraded
      (* deregister calls client.ReportHealth with status DEGRADED *)
  | EvDeregister                          (* client.Deregister is called *)
  | EvDeregisterReturned                  (* client.Deregister returns *)
  | EvShutdown                            (* server.Shutdown(shutdownCtx) *)
  | EvServeReturned (e : error)           (* server.Serve(ln) returns e *)
  | EvAnswered                            (* the server answers a request *)
  | EvConnClose                           (* grpcConn.Close() *)
  | EvReturn (r : option error).          (* start returns r *)

(** ** The three goroutines of [start] *)

(** Where the goroutine that runs [start] stands. *)
Inductive opc :=
  | OListen                      (* before net.Listen *)
  | ODial (actualPort : Z)       (* at "if AutoRegister || HeartbeatEnabled" *)
  | ORegister (actualPort : Z)   (* at "if AutoRegister && client != nil" *)
  | OGoHeartbeat                 (* at "heartbeatDone := make(...)" *)
  | OGoServe                     (* at "server := &http.Server{...}" *)
  | OSelect                      (* blocked in the select *)
  | ODeregister                  (* at the second "if AutoRegister && ..." *)
  | ODegradedWait                (* deregister: inside client.ReportHealth *)
  | ODeregisterCall              (* deregister: before client.Deregister *)
  | ODeregisterWait              (* deregister: inside client.Deregister *)
  | OShutdown                    (* before server.Shutdown *)
  | OAwaitHeartbeat              (* blocked in "<-heartbeatDone" *)
  | OCloseConn                   (* at "if grpcConn != nil" *)
  | OReturned (r : option error).

(** Where the goroutine that runs [heartbeatLoop] stands. *)
Inductive hpc :=
  | HNotStarted
  | HNewTicker                   (* before time.NewTicker *)
  | HSelect                      (* at the select of the loop *)
  | HReportHealth                (* sendHeartbeat: inside ReportHealth *)
  | HReturned.                   (* returned; heartbeatDone is closed *)

(** Where the goroutine that runs [server.Serve] stands. *)
Inductive spc :=
  | SNotStarted
  | SServe
  | SReturned.

(** The channel [serverErr] (capacity 1, one sender). *)
Inductive chan :=
  | ChanOpen                     (* empty and open *)
  | ChanClosed (buf : option error).
                                 (* closed, with the value still buffered *)

(** The connection [grpcConn]. *)
Inductive conn := ConnNil | ConnOpen | ConnClosed.

Record state := {
  self : MeshService;
  orch : opc;
  hb : hpc;
  srv : spc;
  ctxDone : bool;                (* ctx.Done() is closed *)
  ticker : option Duration;      (* the period of the running ticker *)
  tickC : bool;                  (* a tick waits in ticker.C *)
  serverErr : chan;
  heartbeatDone : bool;          (* heartbeatDone is closed *)
  shuttingDown : bool;           (* server.Shutdown has been called *)
  discoveryClient : bool;        (* discoveryClient != nil *)
  grpcConn : conn;
  panicked : bool;               (* a goroutine panicked: the process died *)
  events : list event            (* newest first *)
}.

Definition init (s : MeshService) : state :=
  {| self := s; orch := OListen; hb := HNotStarted; srv := SNotStarted;
     ctxDone := false; ticker := None; tickC := false; serverErr := ChanOpen;
     heartbeatDone := false; shuttingDown := false;
     discoveryClient := false; grpcConn := ConnNil; panicked := false;
     events := [] |}.

Section updates.
Variable s : state.

Definition set_self (v : MeshService) : state :=
  {| self := v; orch := orch s; hb := hb s; srv := srv s;
     ctxDone := ctxDone s; ticker := ticker s; tickC := tickC s; serverErr := serverErr s;
     heartbeatDone := heartbeatDone s; shuttingDown := shuttingDown s;
     discoveryClient := discoveryClient s; grpcConn := grpcConn s;
     panicked := panicked s; events := events s |}.

Definition set_orch (v : opc) : state :=
  {| self := self s; orch := v; hb := hb s; srv := srv s;
     ctxDone := ctxDone s; ticker := ticker s; tickC := tickC s; serverErr := serverErr s;
     heartbeatDone := heartbeatDone s; shuttingDown := shuttingDown s;
     discoveryClient := discoveryClient s; grpcConn := grpcConn s;
     panicked := panicked s; events := events s |}.

Definition set_hb (v : hpc) : state :=
  {| self := self s; orch := orch s; hb := v; srv := srv s;
     ctxDone := ctxDone s; ticker := ticker s; tickC := tickC s; serverErr := serverErr s;
     heartbeatDone := heartbeatDone s; shuttingDown := shuttingDown s;
     discoveryClient := discoveryClient s; grpcConn := grpcConn s;
     panicked := panicked s; events := events s |}.

Definition set_srv (v : spc) : state :=
  {| self := self s; orch := orch s; hb := hb s; srv := v;
     ctxDone := ctxDone s; ticker := ticker s; tickC := tickC s; serverErr := serverErr s;
     heartbeatDone := heartbeatDone s; shuttingDown := shuttingDown s;
     discoveryClient := discoveryClient s; grpcConn := grpcConn s;
     panicked := panicked s; events := events s |}.

Definition set_ctxDone (v : bool) : state :=
  {| self := self s; orch := orch s; hb := hb s; srv := srv s;
     ctxDone := v; ticker := ticker s; tickC := tickC s; serverErr := serverErr s;
     heartbeatDone := heartbeatDone s; shuttingDown := shuttingDown s;
     discoveryClient := discoveryClient s; grpcConn := grpcConn s;
     panicked := panicked s; events := events s |}.

Definition set_ticker (v : option Duration) : state :=
  {| self := self s; orch := orch s; hb := hb s; srv := srv s;
     ctxDone := ctxDone s; ticker := v; tickC := tickC s;
     serverErr := serverErr s;
     heartbeatDone := heartbeatDone s; shuttingDown := shuttingDown s;
     discoveryClient := discoveryClient s; grpcConn := grpcConn s;
     panicked := panicked s; events := events s |}.

Definition set_tickC (v : bool) : state :=
  {| self := self s; orch := orch s; hb := hb s; srv := srv s;
     ctxDone := ctxDone s; ticker := ticker s; tickC := v;
     serverErr := serverErr s;
     heartbeatDone := heartbeatDone s; shuttingDown := shuttingDown s;
     discoveryClient := discoveryClient s; grpcConn := grpcConn s;
     panicked := panicked s; events := events s |}.

Definition set_serverErr (v : chan) : state :=
  {| self := self s; orch := orch s; hb := hb s; srv := srv s;
     ctxDone := ctxDone s; ticker := ticker s; tickC := tickC s; serverErr := v;
     heartbeatDone := heartbeatDone s; shuttingDown := shuttingDown s;
     discoveryClient := discoveryClient s; grpcConn := grpcConn s;
     panicked := panicked s; events := events s |}.

Definition set_heartbeatDone (v : bool) : state :=
  {| self := self s; orch := orch s; hb := hb s; srv := srv s;
     ctxDone := ctxDone s; ticker := ticker s; tickC := tickC s; serverErr := serverErr s;
     heartbeatDone := v; shuttingDown := shuttingDown s;
     discoveryClient := discoveryClient s; grpcConn := grpcConn s;
     panicked := panicked s; events := events s |}.

Definition set_shuttingDown (v : bool) : state :=
  {| self := self s; orch := orch s; hb := hb s; srv := srv s;
     ctxDone := ctxDone s; ticker := ticker s; tickC := tickC s; serverErr := serverErr s;
     heartbeatDone := heartbeatDone s; shuttingDown := v;
     discoveryClient := discoveryClient s; grpcConn := grpcConn s;
     panicked := panicked s; events := events s |}.

Definition set_discoveryClient (v : bool) : state :=
  {| self := self s; orch := orch s; hb := hb s; srv := srv s;
     ctxDone := ctxDone s; ticker := ticker s; tickC := tickC s; serverErr := serverErr s;
     heartbeatDone := heartbeatDone s; shuttingDown := shuttingDown s;
     discoveryClient := v; grpcConn := grpcConn s;
     panicked := panicked s; events := events s |}.

Definition set_grpcConn (v : conn) : state :=
  {| self := self s; orch := orch s; hb := hb s; srv := srv s;
     ctxDone := ctxDone s; ticker := ticker s; tickC := tickC s; serverErr := serverErr s;
     heartbeatDone := heartbeatDone s; shuttingDown := shuttingDown s;
     discoveryClient := discoveryClient s; grpcConn := v;
     panicked := panicked s; events := events s |}.

Definition set_panicked (v : bool) : state :=
  {| self := self s; orch := orch s; hb := hb s; srv := srv s;
     ctxDone := ctxDone s; ticker := ticker s; tickC := tickC s; serverErr := serverErr s;
     heartbeatDone := heartbeatDone s; shuttingDown := shuttingDown s;
     discoveryClient := discoveryClient s; grpcConn := grpcConn s;
     panicked := v; events := events s |}.

(** Record the event [e]. *)
Definition emit (e : event) : state :=
  {| self := self s; orch := orch s; hb := hb s; srv := srv s;
     ctxDone := ctxDone s; ticker := ticker s; tickC := tickC s; serverErr := serverErr s;
     heartbeatDone := heartbeatDone s; shuttingDown := shuttingDown s;
     discoveryClient := discoveryClient s; grpcConn := grpcConn s;
     panicked := panicked s; events := e :: events s |}.

End updates.

(** ** [start], [register], [deregister], [heartbeatLoop], [sendHeartbeat] *)

(** The address [start] listens on. *)
Definition listenAddr (s : MeshService) : string :=
  net.JoinHostPort (Address (opts s)) (strconv.Itoa (Port (opts s))).

(** [ln.Addr().String()] for a TCP listener bound to [host] and [port]. *)
Definition addrString (host : string) (port : Z) : string :=
  net.JoinHostPort host (strconv.Itoa port).

(** "Resolve actual port if ephemeral": both errors are dropped, so a
    failed split leaves the empty string, and of the conversion the value
    is kept whether or not it came with an error. *)
Definition resolvePort (boundAddr : string) : Z :=
  let portStr :=
    match net.SplitHostPort boundAddr with
    | Some (_, port) => port
    | None => ""
    end in
  let '(actualPort, _) := strconv.Atoi portStr in
  actualPort.

(** The request [register] builds. *)
Definition registerRequest (s : MeshService) (actualPort : Z)
  : pb.RegisterServiceRequest :=
  {| pb.ServiceName := ServiceName (opts s);
     pb.ServiceId := ServiceID (opts s);
     pb.Address := AdvertisedAddress (opts s);
     pb.Port := to_int32 actualPort;
     pb.Metadata := buildMetadata s;
     pb.HealthCheck :=
       {| pb.Endpoint := HealthEndpoint (opts s);
          pb.UnhealthyThreshold := to_int32 (UnhealthyThreshold (opts s)) |}
  |}.

(** [register] after [client.Register] has answered [reply]: the records it
    logs and the error it returns. *)
Definition register (s : MeshService)
    (reply : result pb.RegisterServiceResponse)
  : list event * option error :=
  match reply with
  | Err err => ([], Some (ErrGrpcRegister err))
  | Ok resp =>
      if pb.Success resp
      then ([EvLog LevelInfo "registered with discovery"], None)
      else ([], Some (ErrRegistrationRejected (pb.ErrorMessage resp)))
  end.

(** [deregister] after [client.Deregister] has answered: the records it
    logs. [Ok removed] carries [resp.Removed]. *)
Definition deregisterLog (reply : result bool) : list event :=
  match reply with
  | Err _ => [EvLog LevelError "deregistration failed"]
  | Ok true => [EvLog LevelInfo "deregistered from discovery"]
  | Ok false => []
  end.

(** One scheduling decision: a goroutine takes its next step, or the world
    around the process does something. Where the step is a call to a
    collaborator, the action carries the collaborator's answer. *)
Inductive action :=
  (* the world *)
  | Cancel                       (* the caller cancels ctx *)
  | Tick                         (* the ticker sends on ticker.C *)
  | Request                      (* a client sends an HTTP request *)
  (* the goroutine that runs start *)
  | Listen (r : result (string * Z))
      (* net.Listen answers: an error, or a listener bound to host, port *)
  | Dial (r : option error)      (* grpc.NewClient answers *)
  | Register (r : result pb.RegisterServiceResponse)
                                 (* register, with client.Register's answer *)
  | Skip                         (* an "if" whose condition is false *)
  | GoHeartbeat                  (* the "go func" of the heartbeat, or else *)
  | GoServe                      (* the "go func" of the server *)
  | SelectDone                   (* the select takes "<-ctx.Done()" *)
  | SelectServerErr              (* the select takes "<-serverErr" *)
  | DegradedCall                 (* deregister: ReportHealth is called *)
  | DegradedReturn (r : option error)
                                 (* deregister: ReportHealth returns *)
  | DeregisterCall               (* deregister: Deregister is called *)
  | DeregisterReturn (r : result bool)
                                 (* deregister: Deregister returns *)
  | Shutdown                     (* server.Shutdown *)
  | AwaitHeartbeat               (* "<-heartbeatDone" returns *)
  | CloseConn                    (* grpcConn.Close(), "stopped", return nil *)
  (* the goroutine that runs heartbeatLoop *)
  | HbNewTicker                  (* time.NewTicker(HealthInterval) *)
  | HbSelectDone                 (* the select takes "<-ctx.Done()" *)
  | HbSelectTick                 (* the select takes "<-ticker.C" *)
  | HbReportHealthReturn (r : option error)
                                 (* sendHeartbeat: ReportHealth returns *)
  (* the goroutine that runs server.Serve *)
  | ServeReturn (e : error).     (* server.Serve returns e *)

Definition emit_all (s : state) (es : list event) : state :=
  fold_left emit es s.

(** [start] returns [r]. *)
Definition returns (s : state) (r : option error) : state :=
  emit (set_orch s (OReturned r)) (EvReturn r).

(** "s.opts.AutoRegister || s.opts.HeartbeatEnabled" *)
Definition needsDiscovery (s : state) : bool :=
  AutoRegister (opts (self s)) || HeartbeatEnabled (opts (self s)).

(** "s.opts.AutoRegister && discoveryClient != nil" *)
Definition registers (s : state) : bool :=
  AutoRegister (opts (self s)) && discoveryClient s.

(** "s.opts.HeartbeatEnabled && discoveryClient != nil" *)
Definition heartbeats (s : state) : bool :=
  HeartbeatEnabled (opts (self s)) && discoveryClient s.

(** The steps of the goroutine that runs [start]; [None] when the action
    is not its next statement, or is blocked. *)
Definition step_start (a : action) (s : state) : option state :=
  match a, orch s with
  | Listen r, OListen =>
      let addr := listenAddr (self s) in
      let s := emit s (EvListen addr) in
      match r with
      | Err err => Some (returns s (Some (ErrListen addr err)))
      | Ok (host, port) =>
          let s := set_self s {| opts := opts (self s);
                                 boundAddr := addrString host port |} in
          let actualPort := resolvePort (boundAddr (self s)) in
          let s := emit s (EvLog LevelInfo "service starting") in
          Some (set_orch s (ODial actualPort))
      end
  | Dial r, ODial actualPort =>
      if needsDiscovery s then
        let target := DiscoveryAddress (opts (self s)) in
        let s := emit s (EvDial target) in
        match r with
        | Some err =>
            let s := emit s EvListenerClose in
            Some (returns s (Some (ErrConnectDiscovery target err)))
        | None =>
            let s := set_grpcConn s ConnOpen in
            let s := set_discoveryClient s true in
            Some (set_orch s (ORegister actualPort))
        end
      else None
  | Skip, ODial actualPort =>
      if needsDiscovery s then None
      else Some (set_orch s (ORegister actualPort))
  | Register r, ORegister actualPort =>
      if registers s then
        let s := emit s (EvRegister (registerRequest (self s) actualPort)) in
        let '(logs, regErr) := register (self s) r in
        let s := emit_all s logs in
        let s := match regErr with
                 | Some _ => emit s (EvLog LevelError "registration failed")
                 | None => s
                 end in
        Some (set_orch s OGoHeartbeat)
      else None
  | Skip, ORegister _ =>
      if registers s then None else Some (set_orch s OGoHeartbeat)
  | GoHeartbeat, OGoHeartbeat =>
      if heartbeats s
      then Some (set_orch (set_hb s HNewTicker) OGoServe)
      else Some (set_orch (set_heartbeatDone s true) OGoServe)
  | GoServe, OGoServe =>
      Some (set_orch (set_srv s SServe) OSelect)
  | SelectDone, OSelect =>
      if ctxDone s then
        let s := emit s EvSelectDone in
        let s := emit s (EvLog LevelInfo "shutting down") in
        Some (set_orch s ODeregister)
      else None
  | SelectServerErr, OSelect =>
      match serverErr s with
      | ChanOpen => None
      | ChanClosed (Some err) =>
          let s := set_serverErr s (ChanClosed None) in
          let s := emit s (EvSelectServerErr (Some err)) in
          Some (returns s (Some err))
      | ChanClosed None =>
          let s := emit s (EvSelectServerErr None) in
          let s := emit s (EvLog LevelInfo "shutting down") in
          Some (set_orch s ODeregister)
      end
  | DegradedCall, ODeregister =>
      if registers s
      then Some (set_orch (emit s EvDegraded) ODegradedWait)
      else None
  | Skip, ODeregister =>
      if registers s then None else Some (set_orch s OShutdown)
  | DegradedReturn _, ODegradedWait =>
      Some (set_orch s ODeregisterCall)
  | DeregisterCall, ODeregisterCall =>
      Some (set_orch (emit s EvDeregister) ODeregisterWait)
  | DeregisterReturn r, ODeregisterWait =>
      let s := emit s EvDeregisterReturned in
      let s := emit_all s (deregisterLog r) in
      Some (set_orch s OShutdown)
  | Shutdown, OShutdown =>
      let s := set_shuttingDown s true in
      Some (set_orch (emit s EvShutdown) OAwaitHeartbeat)
  | AwaitHeartbeat, OAwaitHeartbeat =>
      if heartbeatDone s then Some (set_orch s OCloseConn) else None
  | CloseConn, OCloseConn =>
      let s := match grpcConn s with
               | ConnNil => s
               | _ => emit (set_grpcConn s ConnClosed) EvConnClose
               end in
      let s := emit s (EvLog LevelInfo "stopped") in
      Some (returns s None)
  | _, _ => None
  end.

(** The steps of the goroutine that runs [heartbeatLoop]. In the select,
    Go takes any one of the cases that are ready. [time.NewTicker] panics
    on a period that is not positive. *)
Definition step_heartbeatLoop (a : action) (s : state) : option state :=
  match a, hb s with
  | HbNewTicker, HNewTicker =>
      let d := HealthInterval (opts (self s)) in
      if decide (d <= 0) then Some (set_panicked s true)
      else Some (set_hb (set_ticker s (Some d)) HSelect)
  | HbSelectDone, HSelect =>
      if ctxDone s then
        let s := set_ticker s None in           (* defer ticker.Stop() *)
        let s := set_heartbeatDone s true in    (* defer close(heartbeatDone) *)
        Some (set_hb (emit s EvHeartbeatExit) HReturned)
      else None
  | HbSelectTick, HSelect =>
      if tickC s then
        let s := set_tickC s false in
        Some (set_hb (emit s (EvHeartbeat (ctxDone s))) HReportHealth)
      else None
  | HbReportHealthReturn r, HReportHealth =>
      let s := match r with
               | Some _ => emit s (EvLog LevelWarn "heartbeat failed")
               | None => s
               end in
      Some (set_hb s HSelect)
  | _, _ => None
  end.

(** The steps of the goroutine that runs [server.Serve]: it returns
    [http.ErrServerClosed] only once [Shutdown] has been called; any other
    error is sent on [serverErr]; then [serverErr] is closed. *)
Definition step_serve (a : action) (s : state) : option state :=
  match a, srv s with
  | ServeReturn e, SServe =>
      let s := emit s (EvServeReturned e) in
      match e with
      | ErrServerClosed =>
          if shuttingDown s
          then Some (set_srv (set_serverErr s (ChanClosed None)) SReturned)
          else None
      | _ => Some (set_srv (set_serverErr s (ChanClosed (Some e))) SReturned)
      end
  | Request, SServe =>
      if shuttingDown s then None else Some (emit s EvAnswered)
  | _, _ => None
  end.

(** One step of the process. After a panic nothing runs. *)
Definition step (a : action) (s : state) : option state :=
  if panicked s then None
  else
    match a with
    | Cancel => Some (emit (set_ctxDone s true) EvCancel)
    | Tick =>
        match ticker s with
        | Some _ => Some (set_tickC s true)
        | None => None
        end
    | Request | ServeReturn _ => step_serve a s
    | HbNewTicker | HbSelectDone | HbSelectTick | HbReportHealthReturn _ =>
        step_heartbeatLoop a s
    | _ => step_start a s
    end.

(** A schedule, run from [s]. *)
Fixpoint run (sched : list action) (s : state) : option state :=
  match sched with
  | [] => Some s
  | a :: sched' =>
      match step a s with
      | Some s' => run sched' s'
      | None => None
      end
  end.

(** The events before an occurrence of [e] in a trace [tr]. *)
Definition past_of (e : event) (tr past : list event) : Prop :=
  exists later, tr = (later ++ e :: past)%list.

(** ** Definitions used in the statements *)

(** The options of the service [New] returns, field by field, in terms of
    the options [o] that the overrides leave. *)
Definition resolved (now : Z) (o : ServiceOptions) : ServiceOptions :=
  {| ServiceName := ServiceName o;
     ServiceID := if decide (ServiceID o = "")
                  then ServiceName o ++ "-" ++ strconv.Itoa now
                  else ServiceID o;
     Address := Address o;
     AdvertisedAddress := if decide (AdvertisedAddress o = "")
                          then Address o else AdvertisedAddress o;
     Port := Port o;
     HealthEndpoint := HealthEndpoint o;
     HealthInterval := HealthInterval o;
     HealthTimeout := HealthTimeout o;
     UnhealthyThreshold := UnhealthyThreshold o;
     HeartbeatEnabled := HeartbeatEnabled o;
     AutoRegister := AutoRegister o;
     DiscoveryAddress := DiscoveryAddress o;
     Metadata := Metadata o;
     Routing :=
       {| Scheme := Scheme (Routing o);
          HealthCheckEndpoint :=
            if decide (HealthCheckEndpoint (Routing o) = "")
            then HealthEndpoint o else HealthCheckEndpoint (Routing o);
          Strategy := Strategy (Routing o);
          Weight := Weight (Routing o) |} |}.

(** The claim C3 as the specification words it: the three reserved keys
    carry the routing values, [weight] is present exactly when the routing
    weight is positive, and every other entry is the user's. *)
Definition metadata_claim (s : MeshService) : Prop :=
  let m := buildMetadata s in
  let r := Routing (opts s) in
  m !! "scheme" = Some (Scheme r) /\
  m !! "health_check_endpoint" = Some (HealthCheckEndpoint r) /\
  m !! "lb_strategy" = Some (Strategy r) /\
  (is_Some (m !! "weight") <-> Weight r > 0) /\
  (Weight r > 0 -> m !! "weight" = Some (strconv.Itoa (Weight r))) /\
  (forall k, k <> "scheme" -> k <> "health_check_endpoint" ->
             k <> "lb_strategy" -> k <> "weight" ->
             m !! k = Metadata (opts s) !! k).

(** A service whose user metadata has a [weight] entry and whose routing
    weight is zero. *)
Definition svc_user_weight : MeshService :=
  {| opts := resolved 0 (applyOptions
                [WithServiceName "svc"; WithMetadata "weight" "999";
                 WithRoutingWeight 0] DefaultOptions);
     boundAddr := "" |}.

(** ** Invariants of the runs of [start] *)

(** How far the goroutine that runs [start] has come. *)
Definition phase (pc : opc) : nat :=
  match pc with
  | OListen => 0
  | ODial _ => 1
  | ORegister _ => 2
  | OGoHeartbeat => 3
  | OGoServe => 4
  | OSelect => 5
  | ODeregister => 6
  | ODegradedWait => 7
  | ODeregisterCall => 8
  | ODeregisterWait => 9
  | OShutdown => 10
  | OAwaitHeartbeat => 11
  | OCloseConn => 12
  | OReturned _ => 13
  end.

(** What has happened before an event [e], for each kind of event. *)
Definition past_ok (svc : MeshService) (e : event) (past : list event)
  : Prop :=
  match e with
  | EvSelectDone => In EvCancel past
  | EvDegraded => In EvSelectDone past \/ In (EvSelectServerErr None) past
  | EvDeregister => In EvDegraded past
  | EvDeregisterReturned => In EvDeregister past
  | EvShutdown =>
      AutoRegister (opts svc) = true ->
      In EvDegraded past /\ In EvDeregister past /\
      In EvDeregisterReturned past
  | EvConnClose =>
      (AutoRegister (opts svc) = true ->
       In EvDegraded past /\ In EvDeregister past /\
       In EvDeregisterReturned past) /\
      In EvShutdown past /\
      (HeartbeatEnabled (opts svc) = true -> In EvHeartbeatExit past)
  | EvHeartbeat c =>
      ~ In EvConnClose past /\ ~ In EvHeartbeatExit past /\
      (c = true <-> In EvCancel past)
  | EvHeartbeatExit => In EvCancel past
  | EvReturn (Some e) =>
      (exists addr cause, e = ErrListen addr cause) \/
      (exists addr cause, e = ErrConnectDiscovery addr cause) \/
      In (EvServeReturned e) past
  | _ => True
  end.

(** Every event of the trace [tr] (newest first) has the past it needs. *)
Fixpoint trace_ok (svc : MeshService) (tr : list event) : Prop :=
  match tr with
  | [] => True
  | e :: past => past_ok svc e past /\ trace_ok svc past
  end.

(** What holds in every state of a run of [start] on the service [svc]. *)
Record inv (svc : MeshService) (s : state) : Prop := {
  inv_opts : opts (self s) = opts svc;
  inv_cancel : ctxDone s = true <-> In EvCancel (events s);
  inv_client :
    (2 <= phase (orch s) <= 12)%nat -> discoveryClient s = needsDiscovery s;
  inv_client_early :
    (phase (orch s) <= 1)%nat -> discoveryClient s = false;
  inv_hb_late :
    (phase (orch s) <= 3)%nat -> hb s = HNotStarted /\ heartbeatDone s = false;
  inv_hb_done :
    heartbeatDone s = true ->
    hb s = HReturned \/
    (hb s = HNotStarted /\ HeartbeatEnabled (opts svc) = false);
  inv_hb_exit : hb s = HReturned <-> In EvHeartbeatExit (events s);
  inv_await : orch s = OCloseConn -> heartbeatDone s = true;
  inv_closed :
    In EvConnClose (events s) ->
    phase (orch s) = 13%nat /\ heartbeatDone s = true;
  inv_select_none :
    (phase (orch s) <= 5)%nat ->
    ~ In EvSelectDone (events s) /\
    forall x, ~ In (EvSelectServerErr x) (events s);
  inv_select_one :
    In EvSelectDone (events s) ->
    forall x, ~ In (EvSelectServerErr x) (events s);
  inv_selected :
    (6 <= phase (orch s) <= 12)%nat ->
    In EvSelectDone (events s) \/ In (EvSelectServerErr None) (events s);
  inv_degraded :
    (7 <= phase (orch s) <= 9)%nat -> In EvDegraded (events s);
  inv_deregister :
    phase (orch s) = 9%nat -> In EvDeregister (events s);
  inv_deregistered :
    (10 <= phase (orch s) <= 12)%nat -> AutoRegister (opts svc) = true ->
    In EvDegraded (events s) /\ In EvDeregister (events s) /\
    In EvDeregisterReturned (events s);
  inv_shutdown :
    (11 <= phase (orch s) <= 12)%nat -> In EvShutdown (events s);
  inv_port :
    forall p, orch s = ODial p \/ orch s = ORegister p ->
              p = resolvePort (boundAddr (self s));
  inv_register_early :
    (phase (orch s) <= 2)%nat ->
    forall req, ~ In (EvRegister req) (events s);
  inv_register :
    forall req, In (EvRegister req) (events s) ->
                pb.Port req = to_int32 (resolvePort (boundAddr (self s)));
  inv_chan :
    forall e, serverErr s = ChanClosed (Some e) ->
              In (EvServeReturned e) (events s);
  inv_ticker :
    hb s = HSelect \/ hb s = HReportHealth ->
    ticker s = Some (HealthInterval (opts svc)) /\
    0 < HealthInterval (opts svc);
  inv_panicked : panicked s = true -> hb s = HNewTicker;
  inv_serving : (phase (orch s) <= 10)%nat -> shuttingDown s = false;
  inv_returned :
    forall r, orch s = OReturned r -> In (EvReturn r) (events s);
  inv_trace : trace_ok svc (events s)
}.

(** ** Example services, schedules and predicates on traces *)

(** A decimal numeral has no colon and no bracket. *)
Definition separator (c : ascii) : Prop :=
  c = ":"%char \/ c = "["%char \/ c = "]"%char.

Definition bracket_free (host : string) : Prop :=
  bytealg.IndexByteString host "[" = None /\
  bytealg.IndexByteString host "]" = None.

Definition svc_example : MeshService :=
  {| opts := resolved 0 (applyOptions
                           [WithServiceName "svc"; WithPort 0;
                            WithHealthInterval Second] DefaultOptions);
     boundAddr := "" |}.

Definition registered : pb.RegisterServiceResponse :=
  {| pb.Success := true; pb.AssignedId := "svc-0"; pb.ErrorMessage := "" |}.

Definition canceled : error := ErrExternal "context canceled".

(** Startup, a heartbeat in flight while the next tick arrives, then
    cancellation; [deregister] runs to its end before the heartbeat call
    returns; back at its select the loop finds both cases ready and takes
    the tick. *)
Definition sched_cancel_in_flight : list action :=
  [Listen (Ok ("0.0.0.0", 43211)); Dial None; Register (Ok registered);
   GoHeartbeat; GoServe; HbNewTicker;
   Tick; HbSelectTick; Tick;
   Cancel; SelectDone;
   DegradedCall; DegradedReturn None;
   DeregisterCall; DeregisterReturn (Ok true);
   HbReportHealthReturn (Some canceled);
   HbSelectTick].

(** The rest of the shutdown once the heartbeat loop has seen the
    cancellation. *)
Definition sched_finish : list action :=
  [HbReportHealthReturn (Some canceled); HbSelectDone;
   Shutdown; ServeReturn ErrServerClosed; AwaitHeartbeat; CloseConn].

(** The claim C1 denies this: a heartbeat call that begins after
    [client.Deregister] has returned. *)
Definition heartbeat_after_deregister (tr : list event) : Prop :=
  exists c later mid past,
    tr = (later ++ EvHeartbeat c :: mid ++ EvDeregisterReturned :: past)%list.

Definition accept_failed : error :=
  ErrExternal "accept tcp: too many open files".

(** Startup with registration and heartbeats, then [server.Serve] fails. *)
Definition sched_serve_error : list action :=
  [Listen (Ok ("0.0.0.0", 43211)); Dial None; Register (Ok registered);
   GoHeartbeat; GoServe; HbNewTicker;
   ServeReturn accept_failed; SelectServerErr].

(** [client.Register] fails: a transport error, or an answer with
    [Success = false]. *)
Definition register_fails (r : result pb.RegisterServiceResponse) : Prop :=
  (exists err, r = Err err) \/
  (exists resp, r = Ok resp /\ pb.Success resp = false).

(** The errors [register] returns. *)
Definition registration_error (e : error) : Prop :=
  match e with
  | ErrGrpcRegister _ | ErrRegistrationRejected _ => True
  | _ => False
  end.

Definition refused : error := ErrExternal "connection refused".

(** The state a schedule leads to from the start of [svc_example]. *)
Definition state_after (sched : list action) : state :=
  match run sched (init svc_example) with
  | Some s => s
  | None => init svc_example
  end.

Definition sched_dialed : list action :=
  [Listen (Ok ("0.0.0.0", 43211)); Dial None].

Definition sched_heartbeat_in_flight : list action :=
  [Listen (Ok ("0.0.0.0", 43211)); Dial None; Register (Ok registered);
   GoHeartbeat; GoServe; HbNewTicker; Tick; HbSelectTick].

(** ** Rounds of the heartbeat loop *)




(** ** The provided options, as data *)

(** The fourteen option constructors of [options.go]. *)
Inductive setting :=
  | SetServiceName (name : string)
  | SetServiceID (id : string)
  | SetAddress (addr : string)
  | SetAdvertisedAddress (addr : string)
  | SetPort (port : Z)
  | SetHealthEndpoint (endpoint : string)
  | SetHealthInterval (d : Duration)
  | SetHeartbeat (enabled : bool)
  | SetAutoRegister (enabled : bool)
  | SetDiscoveryAddress (addr : string)
  | SetMetadata (key value : string)
  | SetRoutingStrategy (s : LoadBalancingStrategy)
  | SetRoutingWeight (w : Z)
  | SetRoutingScheme (scheme : string).

(** The option a constructor builds. *)
Definition option_of (x : setting) : Option :=
  match x with
  | SetServiceName name => WithServiceName name
  | SetServiceID id => WithServiceID id
  | SetAddress addr => WithAddress addr
  | SetAdvertisedAddress addr => WithAdvertisedAddress addr
  | SetPort port => WithPort port
  | SetHealthEndpoint endpoint => WithHealthEndpoint endpoint
  | SetHealthInterval d => WithHealthInterval d
  | SetHeartbeat enabled => WithHeartbeat enabled
  | SetAutoRegister enabled => WithAutoRegister enabled
  | SetDiscoveryAddress addr => WithDiscoveryAddress addr
  | SetMetadata key value => WithMetadata key value
  | SetRoutingStrategy s => WithRoutingStrategy s
  | SetRoutingWeight w => WithRoutingWeight w
  | SetRoutingScheme scheme => WithRoutingScheme scheme
  end.

(** What an option writes: one field, or one key of the metadata map. *)
Inductive place :=
  | PServiceName | PServiceID | PAddress | PAdvertisedAddress | PPort
  | PHealthEndpoint | PHealthInterval | PHeartbeat | PAutoRegister
  | PDiscoveryAddress | PMetadata (key : string)
  | PRoutingStrategy | PRoutingWeight | PRoutingScheme.

Definition place_of (x : setting) : place :=
  match x with
  | SetServiceName _ => PServiceName
  | SetServiceID _ => PServiceID
  | SetAddress _ => PAddress
  | SetAdvertisedAddress _ => PAdvertisedAddress
  | SetPort _ => PPort
  | SetHealthEndpoint _ => PHealthEndpoint
  | SetHealthInterval _ => PHealthInterval
  | SetHeartbeat _ => PHeartbeat
  | SetAutoRegister _ => PAutoRegister
  | SetDiscoveryAddress _ => PDiscoveryAddress
  | SetMetadata key _ => PMetadata key
  | SetRoutingStrategy _ => PRoutingStrategy
  | SetRoutingWeight _ => PRoutingWeight
  | SetRoutingScheme _ => PRoutingScheme
  end.

(** ** Reserved metadata keys *)

(** The keys [buildMetadata] writes itself. *)
Definition reserved_key (k : string) : Prop :=
  k = "scheme" \/ k = "health_check_endpoint" \/ k = "lb_strategy" \/
  k = "weight".

(** ** Further invariants of the runs of [start] *)

(** The number of [Register] calls in a trace. *)
Fixpoint register_calls (tr : list event) : nat :=
  match tr with
  | [] => 0
  | EvRegister _ :: tr' => S (register_calls tr')
  | _ :: tr' => register_calls tr'
  end.

Record inv_more (svc : MeshService) (s : state) : Prop := {
  more_srv : (phase (orch s) <= 4)%nat -> srv s = SNotStarted;
  more_conn : (phase (orch s) <= 1)%nat -> grpcConn s = ConnNil;
  more_dereg_block :
    (7 <= phase (orch s) <= 9)%nat -> AutoRegister (opts svc) = true;
  more_shutting :
    (11 <= phase (orch s) <= 12)%nat -> shuttingDown s = true;
  more_self : orch s = OListen -> self s = svc;
  more_done :
    (4 <= phase (orch s) <= 12)%nat -> hb s = HNotStarted ->
    heartbeatDone s = true;
  more_exited : hb s = HReturned -> heartbeatDone s = true;
  more_no_heartbeat :
    HeartbeatEnabled (opts svc) = false ->
    hb s = HNotStarted /\ forall c, ~ In (EvHeartbeat c) (events s);
  more_no_register :
    AutoRegister (opts svc) = false ->
    (forall r, ~ In (EvRegister r) (events s)) /\
    ~ In EvDegraded (events s) /\ ~ In EvDeregister (events s);
  more_no_discovery :
    AutoRegister (opts svc) = false -> HeartbeatEnabled (opts svc) = false ->
    grpcConn s = ConnNil /\ discoveryClient s = false /\
    (forall t, ~ In (EvDial t) (events s)) /\
    ~ In EvConnClose (events s);
  more_clean :
    orch s = OReturned None ->
    In EvShutdown (events s) /\ heartbeatDone s = true /\
    shuttingDown s = true /\ grpcConn s <> ConnOpen;
  more_registered :
    (3 <= phase (orch s) <= 12)%nat -> AutoRegister (opts svc) = true ->
    register_calls (events s) = 1%nat;
  more_serving :
    srv s = SServe -> AutoRegister (opts svc) = true ->
    register_calls (events s) = 1%nat;
  more_once :
    (register_calls (events s) <= 1)%nat /\
    ((phase (orch s) <= 2)%nat -> register_calls (events s) = 0%nat)
}.

(** What holds while [start] has not entered its shutdown sequence, and
    when it has returned an error without entering it. *)
Record inv_abort (svc : MeshService) (s : state) : Prop := {
  abort_early :
    (phase (orch s) <= 5)%nat ->
    ~ In EvDegraded (events s) /\ ~ In EvDeregister (events s) /\
    ~ In EvShutdown (events s) /\ ~ In EvConnClose (events s);
  abort_error :
    forall e, orch s = OReturned (Some e) ->
    ~ In EvDegraded (events s) /\ ~ In EvDeregister (events s) /\
    ~ In EvShutdown (events s) /\ ~ In EvConnClose (events s);
  abort_selected :
    forall e, In (EvSelectServerErr (Some e)) (events s) ->
              orch s = OReturned (Some e);
  abort_conn :
    (2 <= phase (orch s) <= 5)%nat -> AutoRegister (opts svc) = true ->
    grpcConn s = ConnOpen;
  abort_left :
    forall e, In (EvSelectServerErr (Some e)) (events s) ->
    AutoRegister (opts svc) = true ->
    grpcConn s = ConnOpen /\ register_calls (events s) = 1%nat
}.

(** ** Further example services and schedules *)

Definition svc_plain : MeshService :=
  {| opts := resolved 0 (applyOptions
                [WithServiceName "health-test"; WithPort 0;
                 WithAutoRegister false; WithHeartbeat false]
                DefaultOptions);
     boundAddr := "" |}.

Definition sched_plain : list action :=
  [Listen (Ok ("0.0.0.0", 43211)); Skip; Skip; GoHeartbeat; GoServe;
   Request; Cancel; SelectDone; Skip; Shutdown; AwaitHeartbeat; CloseConn].

(** The state a schedule leads to, from the start of [svc]. *)
Definition final (svc : MeshService) (sched : list action) : state :=
  match run sched (init svc) with
  | Some s => s
  | None => init svc
  end.

Definition no_socket : error := ErrExternal "bind: address already in use".

(** ** Schedules that finish a run *)

(** The steps that bring the heartbeat goroutine to its end once the
    context is cancelled. *)
Definition heartbeat_finish (pc : hpc) : list action :=
  match pc with
  | HNewTicker => [HbNewTicker; HbSelectDone]
  | HSelect => [HbSelectDone]
  | HReportHealth => [HbReportHealthReturn None; HbSelectDone]
  | HNotStarted | HReturned => []
  end.

(** The steps of [start] from its select to its return, on cancellation. *)
Definition start_finish (registered : bool) : list action :=
  SelectDone ::
  (if registered
   then [DegradedCall; DegradedReturn None; DeregisterCall;
         DeregisterReturn (Ok true)]
   else [Skip]) ++
  [Shutdown; AwaitHeartbeat; CloseConn].

(** ** mesh.go: [Addr] and [healthHandler]; the example's [main] *)

(** [Addr]: the bound address, read under the mutex. *)
Definition Addr (s : MeshService) : string := boundAddr s.

(** The map [healthHandler] encodes as the body of its answer. *)
Definition healthHandler (s : MeshService) : gmap string string :=
  {[ "status" := "Healthy";
     "service" := ServiceName (opts s);
     "id" := ServiceID (opts s) ]}.

(** [os.Getenv]: the value of the variable, empty when it is not set. *)
Definition Getenv (env : gmap string string) (key : string) : string :=
  default "" (env !! key).

Definition envOr (env : gmap string string) (key fallback : string)
  : string :=
  let v := Getenv env key in
  if decide (v <> "") then v else fallback.

Definition envInt (env : gmap string string) (key : string) (fallback : Z)
  : Z :=
  match strconv.Atoi (Getenv env key) with
  | (v, None) => v
  | (_, Some _) => fallback
  end.

(** The options [main] passes to [runtime.New]. *)
Definition main_options (env : gmap string string) : list Option :=
  let name := envOr env "MESH_SERVICE_NAME" "hello-go" in
  let port := envInt env "MESH_SERVICE_PORT" 9090 in
  let discovery := envOr env "MESH_DISCOVERY_ADDRESS" "localhost:8080" in
  [WithServiceName name; WithPort port; WithDiscoveryAddress discovery;
   WithRoutingStrategy RoundRobin; WithMetadata "version" "1.0.0"].

(** ** A schedule that stops inside [deregister] *)

Definition sched_degraded_wait : list action :=
  [Listen (Ok ("0.0.0.0", 43211)); Dial None; Register (Ok registered);
   GoHeartbeat; GoServe; Cancel; SelectDone; DegradedCall].


(** * Properties *)

(** ** The configuration resolver *)

Lemma applyOptions_app (fns gns : list Option) (o : ServiceOptions) :
  applyOptions (fns ++ gns) o = applyOptions gns (applyOptions fns o).
Proof. unfold applyOptions. apply fold_left_app. Qed.

Lemma New_Ok (now : Z) (fns : list Option) (svc : MeshService) :
  New now fns = Ok svc ->
  ServiceName (applyOptions fns DefaultOptions) <> "" /\
  svc = {| opts := resolved now (applyOptions fns DefaultOptions);
           boundAddr := "" |}.
Proof.
  unfold New. generalize (applyOptions fns DefaultOptions) as o. intros o.
  destruct (decide (ServiceName o = "")) as [He | Hne]; [discriminate |].
  intros H. injection H as <-. split; [exact Hne |].
  f_equal. unfold resolved.
  destruct o as [n i a adv p he hi ht ut hb ar da md [sc hce st w]]; simpl.
  repeat (case_decide; simpl in *); subst; first [reflexivity | congruence].
Qed.

Lemma New_Err (now : Z) (fns : list Option) (e : error) :
  New now fns = Err e ->
  e = ErrServiceNameRequired /\
  ServiceName (applyOptions fns DefaultOptions) = "".
Proof.
  unfold New.
  destruct (decide (ServiceName (applyOptions fns DefaultOptions) = ""))
    as [He | Hne]; [| discriminate].
  intros H. injection H as <-. auto.
Qed.

(** C4. [New] fails exactly when the service name is empty once all the
    overrides have run, whatever the overrides are and whatever they leave
    in the other fields; the failure is the error "ServiceName is required"
    and [New] has no other failure. *)
Theorem New_fails_iff_ServiceName_empty (now : Z) (fns : list Option) :
  (New now fns = Err ErrServiceNameRequired <->
   ServiceName (applyOptions fns DefaultOptions) = "") /\
  (forall e, New now fns = Err e -> e = ErrServiceNameRequired) /\
  (ServiceName (applyOptions fns DefaultOptions) <> "" ->
   exists svc, New now fns = Ok svc).
Proof.
  split; [split |split].
  - intros H. apply New_Err in H. tauto.
  - intros He. unfold New. rewrite decide_True by exact He. reflexivity.
  - intros e H. apply New_Err in H. tauto.
  - intros Hne. unfold New. rewrite decide_False by exact Hne. eauto.
Qed.

(** C5. When the overrides leave the advertised address empty, the service
    advertises its bind address, and that is the bind address the last
    override set. The service identifier and the routing health-check path
    are derived in the same way from the options the overrides leave. *)
Theorem New_derives_after_overrides
    (now : Z) (fns : list Option) (svc : MeshService) :
  New now fns = Ok svc ->
  AdvertisedAddress (applyOptions fns DefaultOptions) = "" ->
  let o := applyOptions fns DefaultOptions in
  AdvertisedAddress (opts svc) = Address (opts svc) /\
  Address (opts svc) = Address o /\
  (forall a, AdvertisedAddress (applyOptions (fns ++ [WithAddress a])
                                             DefaultOptions) = "" /\
             Address (applyOptions (fns ++ [WithAddress a])
                                   DefaultOptions) = a) /\
  ServiceID (opts svc) =
    (if decide (ServiceID o = "")
     then ServiceName o ++ "-" ++ strconv.Itoa now else ServiceID o) /\
  HealthCheckEndpoint (Routing (opts svc)) =
    (if decide (HealthCheckEndpoint (Routing o) = "")
     then HealthEndpoint o else HealthCheckEndpoint (Routing o)).
Proof.
  intros HN Hadv o. subst o. apply New_Ok in HN as [_ ->].
  unfold resolved.
  cbn [opts AdvertisedAddress Address ServiceID Routing HealthCheckEndpoint].
  rewrite decide_True by exact Hadv. repeat split.
  - rewrite applyOptions_app. exact Hadv.
  - rewrite applyOptions_app. reflexivity.
Qed.

Lemma New_derives_after_overrides_witness :
  AdvertisedAddress
    (opts {| opts := resolved 7 (applyOptions
                       [WithServiceName "test"; WithAddress "10.0.0.1"]
                       DefaultOptions);
             boundAddr := "" |}) = "10.0.0.1".
Proof.
  pose proof (New_derives_after_overrides 7
                [WithServiceName "test"; WithAddress "10.0.0.1"]
                {| opts := resolved 7 (applyOptions
                       [WithServiceName "test"; WithAddress "10.0.0.1"]
                       DefaultOptions);
                   boundAddr := "" |} eq_refl eq_refl) as [H1 [H2 _]].
  rewrite H1, H2. reflexivity.
Defined.

(** ** The metadata builder *)

(** The copy loop of [buildMetadata] yields the user's map. *)
Lemma copy_loop (um : gmap string string) :
  map_fold (fun k v (m : gmap string string) => <[k := v]> m) ∅ um = um.
Proof.
  apply (map_fold_weak_ind (fun r m => r = m)); [reflexivity |].
  intros i x m r _ ->. reflexivity.
Qed.

(** The built metadata, key by key. *)
Lemma buildMetadata_lookup (s : MeshService) (k : string) :
  buildMetadata s !! k =
    let r := Routing (opts s) in
    if decide (k = "weight") then
      if decide (Weight r > 0) then Some (strconv.Itoa (Weight r))
      else Metadata (opts s) !! "weight"
    else if decide (k = "lb_strategy") then Some (Strategy r)
    else if decide (k = "health_check_endpoint")
         then Some (HealthCheckEndpoint r)
    else if decide (k = "scheme") then Some (Scheme r)
    else Metadata (opts s) !! k.
Proof.
  unfold buildMetadata. rewrite copy_loop. cbv zeta.
  destruct (decide (Weight (Routing (opts s)) > 0)) as [Hw | Hw];
    repeat case_decide; subst; simplify_map_eq; reflexivity.
Qed.

(** C3, counterexample. With routing weight 0 and a user entry
    [weight = 999] the built metadata has the key [weight], so the key is
    not present "exactly when weight > 0". *)
Lemma buildMetadata_weight_counterexample :
  New 0 [WithServiceName "svc"; WithMetadata "weight" "999";
         WithRoutingWeight 0] = Ok svc_user_weight /\
  Weight (Routing (opts svc_user_weight)) = 0 /\
  buildMetadata svc_user_weight !! "weight" = Some "999" /\
  ~ metadata_claim svc_user_weight.
Proof.
  assert (Hl : buildMetadata svc_user_weight !! "weight" = Some "999").
  { rewrite buildMetadata_lookup. reflexivity. }
  split; [reflexivity |]. split; [reflexivity |]. split; [exact Hl |].
  intros (_ & _ & _ & [Hw _] & _).
  rewrite Hl in Hw. specialize (Hw (mk_is_Some _ _ eq_refl)).
  simpl in Hw. lia.
Qed.

(** C3, amended. The keys [scheme], [health_check_endpoint] and
    [lb_strategy] always carry the routing values, over any user entry of
    the same name. The key [weight] carries the routing weight when it is
    positive; when it is not, the builder leaves [weight] as the user
    supplied it, present or absent. Every other entry is the user's. *)
Theorem buildMetadata_reserved_keys (s : MeshService) :
  let m := buildMetadata s in
  let r := Routing (opts s) in
  m !! "scheme" = Some (Scheme r) /\
  m !! "health_check_endpoint" = Some (HealthCheckEndpoint r) /\
  m !! "lb_strategy" = Some (Strategy r) /\
  m !! "weight" = (if decide (Weight r > 0)
                   then Some (strconv.Itoa (Weight r))
                   else Metadata (opts s) !! "weight") /\
  (forall k, m !! k =
     if decide (k ∈ ["scheme"; "health_check_endpoint";
                     "lb_strategy"; "weight"])
     then m !! k else Metadata (opts s) !! k).
Proof.
  cbv zeta. repeat split; try (rewrite buildMetadata_lookup; reflexivity).
  intros k. case_decide as Hk; [reflexivity |].
  rewrite buildMetadata_lookup. cbv zeta.
  repeat case_decide; subst; try reflexivity;
    exfalso; apply Hk; set_solver.
Qed.

(** C10. With a routing weight that is not positive, a user entry under
    the key [weight] reaches the built metadata unchanged. *)
Theorem buildMetadata_keeps_user_weight (s : MeshService) (v : string) :
  Weight (Routing (opts s)) <= 0 ->
  Metadata (opts s) !! "weight" = Some v ->
  buildMetadata s !! "weight" = Some v.
Proof.
  intros Hw Hv. rewrite buildMetadata_lookup. cbv zeta.
  rewrite decide_True by reflexivity.
  rewrite decide_False by lia. exact Hv.
Qed.

Lemma buildMetadata_keeps_user_weight_witness :
  Weight (Routing (opts svc_user_weight)) <= 0 /\
  Metadata (opts svc_user_weight) !! "weight" = Some "999" /\
  buildMetadata svc_user_weight !! "weight" = Some "999".
Proof.
  assert (H1 : Weight (Routing (opts svc_user_weight)) <= 0)
    by (simpl; lia).
  assert (H2 : Metadata (opts svc_user_weight) !! "weight" = Some "999")
    by reflexivity.
  split; [exact H1 |]. split; [exact H2 |].
  exact (buildMetadata_keeps_user_weight svc_user_weight "999" H1 H2).
Defined.

(** ** The runs of [start]: invariants *)

Lemma inv_init (svc : MeshService) : inv svc (init svc).
Proof.
  split; simpl; try tauto; try lia; try (intuition (try discriminate; lia)).
Qed.

Ltac step_cases H :=
  repeat match type of H with
  | (if ?b then _ else _) = Some _ => destruct b eqn:?
  | match ?x with _ => _ end = Some _ => destruct x eqn:?
  | (let '(_, _) := ?x in _) = Some _ => destruct x eqn:?
  | None = Some _ => discriminate H
  | Some _ = Some _ => injection H as <-
  end.

Ltac use_pcs :=
  repeat match goal with
  | H : orch ?s = _ |- _ => rewrite H in *; clear H
  | H : hb ?s = _ |- _ => rewrite H in *; clear H
  | H : srv ?s = _ |- _ => rewrite H in *; clear H
  end.

(** Case analysis on an enabled step. *)
Ltac step_destruct a Hstep :=
  unfold step in Hstep;
  match type of Hstep with
  | (if panicked ?s then _ else _) = _ =>
      destruct (panicked s) eqn:?; [discriminate Hstep |]
  end;
  destruct a; unfold step_start, step_heartbeatLoop, step_serve in Hstep;
  step_cases Hstep;
  unfold returns, register, deregisterLog, registers, heartbeats,
    needsDiscovery in *;
  repeat match goal with
  | H : (if ?b then _ else _) = (_, _) |- _ => destruct b eqn:?
  | H : match ?x with _ => _ end = (_, _) |- _ => destruct x eqn:?
  | H : (_, _) = (_, _) |- _ => injection H as <- <-
  | |- context [match ?x with _ => _ end] => destruct x eqn:?
  end;
  use_pcs; simpl in *.

Ltac arith_hyps :=
  repeat match goal with
  | H : (?P -> _) |- _ =>
      lazymatch P with
      | context [phase] => fail
      | (_ <= _)%nat => idtac
      | (_ <= _ <= _)%nat => idtac
      | @eq nat _ _ => idtac
      end;
      first [ specialize (H ltac:(lia)) | clear H ]
  end.

Ltac bool_cases :=
  repeat match goal with
  | H : opts (self ?s) = opts _ |- _ => rewrite H in *; clear H
  end;
  match goal with
  | s : state, svc : MeshService |- _ =>
      destruct (AutoRegister (opts svc)) eqn:?,
               (HeartbeatEnabled (opts svc)) eqn:?,
               (discoveryClient s) eqn:?
  end; simpl in *.

Ltac easy_finish :=
  intuition (first [discriminate | congruence | lia | eauto]).

Ltac finish := arith_hyps; try solve [easy_finish].

Section preservation.
Variable svc : MeshService.
Variables (a : action) (s s' : state).
Hypothesis Hinv : inv svc s.
Hypothesis Hstep : step a s = Some s'.

Lemma step_inv_opts : opts (self s') = opts svc.
Proof.
  pose proof (inv_opts _ _ Hinv). clear Hinv.
  step_destruct a Hstep; finish.
Qed.

Lemma step_inv_cancel : ctxDone s' = true <-> In EvCancel (events s').
Proof.
  pose proof (inv_cancel _ _ Hinv). clear Hinv.
  step_destruct a Hstep; finish.
Qed.


Lemma step_inv_client_early :
  (phase (orch s') <= 1)%nat -> discoveryClient s' = false.
Proof.
  pose proof (inv_client_early _ _ Hinv).
  clear Hinv. step_destruct a Hstep; finish.
Qed.

Lemma step_inv_client :
  (2 <= phase (orch s') <= 12)%nat -> discoveryClient s' = needsDiscovery s'.
Proof.
  pose proof (inv_client _ _ Hinv).
  pose proof (inv_client_early _ _ Hinv).
  clear Hinv. step_destruct a Hstep; finish.
Qed.

Lemma step_inv_hb_late :
  (phase (orch s') <= 3)%nat -> hb s' = HNotStarted /\ heartbeatDone s' = false.
Proof.
  pose proof (inv_hb_late _ _ Hinv).
  clear Hinv. step_destruct a Hstep; finish.
Qed.

Lemma step_inv_hb_done :
  heartbeatDone s' = true -> hb s' = HReturned \/ (hb s' = HNotStarted /\ HeartbeatEnabled (opts svc) = false).
Proof.
  pose proof (inv_opts _ _ Hinv).
  pose proof (inv_client _ _ Hinv).
  pose proof (inv_hb_late _ _ Hinv).
  pose proof (inv_hb_done _ _ Hinv).
  clear Hinv. step_destruct a Hstep; finish.
  all: bool_cases; arith_hyps; easy_finish.
Qed.

Lemma step_inv_hb_exit :
  hb s' = HReturned <-> In EvHeartbeatExit (events s').
Proof.
  pose proof (inv_hb_late _ _ Hinv).
  pose proof (inv_hb_exit _ _ Hinv).
  clear Hinv. step_destruct a Hstep; finish.
Qed.

Lemma step_inv_await :
  orch s' = OCloseConn -> heartbeatDone s' = true.
Proof.
  pose proof (inv_await _ _ Hinv).
  clear Hinv. step_destruct a Hstep; finish.
Qed.

Lemma step_inv_closed :
  In EvConnClose (events s') -> phase (orch s') = 13%nat /\ heartbeatDone s' = true.
Proof.
  pose proof (inv_await _ _ Hinv).
  pose proof (inv_closed _ _ Hinv).
  clear Hinv. step_destruct a Hstep; finish.
Qed.

Lemma step_inv_select_none :
  (phase (orch s') <= 5)%nat -> ~ In EvSelectDone (events s') /\ forall x, ~ In (EvSelectServerErr x) (events s').
Proof.
  pose proof (inv_select_none _ _ Hinv).
  clear Hinv. step_destruct a Hstep; finish.
Qed.

Lemma step_inv_select_one :
  In EvSelectDone (events s') -> forall x, ~ In (EvSelectServerErr x) (events s').
Proof.
  pose proof (inv_select_none _ _ Hinv).
  pose proof (inv_select_one _ _ Hinv).
  clear Hinv. step_destruct a Hstep; finish.
Qed.

Lemma step_inv_selected :
  (6 <= phase (orch s') <= 12)%nat -> In EvSelectDone (events s') \/ In (EvSelectServerErr None) (events s').
Proof.
  pose proof (inv_selected _ _ Hinv).
  clear Hinv. step_destruct a Hstep; finish.
Qed.

Lemma step_inv_degraded :
  (7 <= phase (orch s') <= 9)%nat -> In EvDegraded (events s').
Proof.
  pose proof (inv_degraded _ _ Hinv).
  clear Hinv. step_destruct a Hstep; finish.
Qed.

Lemma step_inv_deregister :
  phase (orch s') = 9%nat -> In EvDeregister (events s').
Proof.
  pose proof (inv_deregister _ _ Hinv).
  clear Hinv. step_destruct a Hstep; finish.
Qed.

Lemma step_inv_deregistered :
  (10 <= phase (orch s') <= 12)%nat -> AutoRegister (opts svc) = true -> In EvDegraded (events s') /\ In EvDeregister (events s') /\ In EvDeregisterReturned (events s').
Proof.
  pose proof (inv_opts _ _ Hinv).
  pose proof (inv_client _ _ Hinv).
  pose proof (inv_degraded _ _ Hinv).
  pose proof (inv_deregister _ _ Hinv).
  pose proof (inv_deregistered _ _ Hinv).
  clear Hinv. step_destruct a Hstep; finish.
  all: bool_cases; arith_hyps; easy_finish.
Qed.

Lemma step_inv_shutdown :
  (11 <= phase (orch s') <= 12)%nat -> In EvShutdown (events s').
Proof.
  pose proof (inv_shutdown _ _ Hinv).
  clear Hinv. step_destruct a Hstep; finish.
Qed.

Lemma step_inv_port :
  forall p, orch s' = ODial p \/ orch s' = ORegister p -> p = resolvePort (boundAddr (self s')).
Proof.
  pose proof (inv_port _ _ Hinv).
  clear Hinv. step_destruct a Hstep; finish.
  all: intros p [Hp | Hp]; simplify_eq; eauto.
Qed.

Lemma step_inv_register_early :
  (phase (orch s') <= 2)%nat -> forall req, ~ In (EvRegister req) (events s').
Proof.
  pose proof (inv_register_early _ _ Hinv).
  clear Hinv. step_destruct a Hstep; finish.
Qed.

Lemma step_inv_register :
  forall req, In (EvRegister req) (events s') -> pb.Port req = to_int32 (resolvePort (boundAddr (self s'))).
Proof.
  pose proof (inv_port _ _ Hinv).
  pose proof (inv_register_early _ _ Hinv).
  pose proof (inv_register _ _ Hinv).
  clear Hinv. step_destruct a Hstep; finish.
  all: intros req Hreq; repeat destruct Hreq as [Hreq | Hreq]; simplify_eq; simpl; eauto.
  all: try (f_equal; eauto; fail).
  all: match goal with
       | H : forall r, ~ In (EvRegister r) _ |- _ =>
           exfalso; eapply H; eassumption
       end.
Qed.

Lemma step_inv_chan :
  forall e, serverErr s' = ChanClosed (Some e) -> In (EvServeReturned e) (events s').
Proof.
  pose proof (inv_chan _ _ Hinv).
  clear Hinv. step_destruct a Hstep; finish.
  all: intros e' He'; simplify_eq; eauto.
Qed.

Lemma step_inv_ticker :
  hb s' = HSelect \/ hb s' = HReportHealth ->
  ticker s' = Some (HealthInterval (opts svc)) /\
  0 < HealthInterval (opts svc).
Proof.
  pose proof (inv_opts _ _ Hinv).
  pose proof (inv_ticker _ _ Hinv).
  clear Hinv. step_destruct a Hstep; finish.
  all: match goal with
       | H : opts (self _) = opts _ |- _ =>
           intros _; split; [congruence | rewrite <- H; lia]
       end.
Qed.

Lemma step_inv_panicked : panicked s' = true -> hb s' = HNewTicker.
Proof.
  pose proof (inv_panicked _ _ Hinv).
  clear Hinv. step_destruct a Hstep; finish.
Qed.

Lemma step_inv_serving :
  (phase (orch s') <= 10)%nat -> shuttingDown s' = false.
Proof.
  pose proof (inv_serving _ _ Hinv).
  clear Hinv. step_destruct a Hstep; finish.
Qed.

Lemma step_inv_returned :
  forall r, orch s' = OReturned r -> In (EvReturn r) (events s').
Proof.
  pose proof (inv_returned _ _ Hinv).
  clear Hinv. step_destruct a Hstep; finish.
  all: intros r' Hr'; simplify_eq; simpl; eauto.
Qed.

Lemma step_inv_trace :
  trace_ok svc (events s').
Proof.
  pose proof (inv_opts _ _ Hinv).
  pose proof (inv_cancel _ _ Hinv).
  pose proof (inv_hb_done _ _ Hinv).
  pose proof (inv_hb_exit _ _ Hinv).
  pose proof (inv_await _ _ Hinv).
  pose proof (inv_closed _ _ Hinv).
  pose proof (inv_selected _ _ Hinv).
  pose proof (inv_degraded _ _ Hinv).
  pose proof (inv_deregister _ _ Hinv).
  pose proof (inv_deregistered _ _ Hinv).
  pose proof (inv_shutdown _ _ Hinv).
  pose proof (inv_chan _ _ Hinv).
  pose proof (inv_trace _ _ Hinv).
  clear Hinv. step_destruct a Hstep; finish.
Qed.
End preservation.

Lemma step_inv (svc : MeshService) (a : action) (s s' : state) :
  inv svc s -> step a s = Some s' -> inv svc s'.
Proof.
  intros Hinv Hstep. split.
  - eapply step_inv_opts; eassumption.
  - eapply step_inv_cancel; eassumption.
  - eapply step_inv_client; eassumption.
  - eapply step_inv_client_early; eassumption.
  - eapply step_inv_hb_late; eassumption.
  - eapply step_inv_hb_done; eassumption.
  - eapply step_inv_hb_exit; eassumption.
  - eapply step_inv_await; eassumption.
  - eapply step_inv_closed; eassumption.
  - eapply step_inv_select_none; eassumption.
  - eapply step_inv_select_one; eassumption.
  - eapply step_inv_selected; eassumption.
  - eapply step_inv_degraded; eassumption.
  - eapply step_inv_deregister; eassumption.
  - eapply step_inv_deregistered; eassumption.
  - eapply step_inv_shutdown; eassumption.
  - eapply step_inv_port; eassumption.
  - eapply step_inv_register_early; eassumption.
  - eapply step_inv_register; eassumption.
  - eapply step_inv_chan; eassumption.
  - eapply step_inv_ticker; eassumption.
  - eapply step_inv_panicked; eassumption.
  - eapply step_inv_serving; eassumption.
  - eapply step_inv_returned; eassumption.
  - eapply step_inv_trace; eassumption.
Qed.

Lemma run_inv (svc : MeshService) (sched : list action) (s s' : state) :
  inv svc s -> run sched s = Some s' -> inv svc s'.
Proof.
  revert s. induction sched as [| a sched IH]; intros s Hinv Hrun.
  - injection Hrun as <-. exact Hinv.
  - simpl in Hrun. destruct (step a s) as [s1 |] eqn:Hs; [| discriminate].
    eapply IH; [eapply step_inv; eassumption | exact Hrun].
Qed.

Lemma reachable_inv (svc : MeshService) (sched : list action) (s : state) :
  run sched (init svc) = Some s -> inv svc s.
Proof. apply run_inv, inv_init. Qed.

(** ** Strings: indices, slices, decimal numerals *)

Lemma append_nil (s : string) : "" ++ s = s.
Proof. reflexivity. Qed.

Lemma append_cons (a : ascii) (s1 s2 : string) :
  String a s1 ++ s2 = String a (s1 ++ s2).
Proof. reflexivity. Qed.

Lemma IndexByteString_app (s1 s2 : string) (c : ascii) :
  bytealg.IndexByteString (s1 ++ s2) c =
    match bytealg.IndexByteString s1 c with
    | Some i => Some i
    | None =>
        match bytealg.IndexByteString s2 c with
        | Some i => Some (String.length s1 + i)%nat
        | None => None
        end
    end.
Proof.
  induction s1 as [| a s1 IH]; rewrite ?append_nil, ?append_cons; simpl.
  - destruct (bytealg.IndexByteString s2 c); reflexivity.
  - destruct (Ascii.eqb a c); [reflexivity |]. rewrite IH.
    destruct (bytealg.IndexByteString s1 c); [reflexivity |].
    destruct (bytealg.IndexByteString s2 c); reflexivity.
Qed.

Lemma LastIndexByteString_None (s : string) (c : ascii) :
  bytealg.IndexByteString s c = None ->
  bytealg.LastIndexByteString s c = None.
Proof.
  induction s as [| a s IH]; simpl; [reflexivity |].
  destruct (Ascii.eqb a c); [discriminate |].
  destruct (bytealg.IndexByteString s c); [discriminate |].
  intros _. rewrite IH; reflexivity.
Qed.

Lemma LastIndexByteString_app (s1 s2 : string) (c : ascii) :
  bytealg.LastIndexByteString (s1 ++ s2) c =
    match bytealg.LastIndexByteString s2 c with
    | Some i => Some (String.length s1 + i)%nat
    | None => bytealg.LastIndexByteString s1 c
    end.
Proof.
  induction s1 as [| a s1 IH]; rewrite ?append_nil, ?append_cons; simpl.
  - destruct (bytealg.LastIndexByteString s2 c); reflexivity.
  - rewrite IH. destruct (bytealg.LastIndexByteString s2 c); reflexivity.
Qed.

Lemma slice_from_app (s1 s2 : string) :
  slice_from (String.length s1) (s1 ++ s2) = s2.
Proof.
  induction s1 as [| a s1 IH]; rewrite ?append_nil, ?append_cons; simpl;
    [destruct s2 |]; auto.
Qed.

Lemma substring_app (s1 s2 : string) :
  substring 0 (String.length s1) (s1 ++ s2) = s1.
Proof.
  induction s1 as [| a s1 IH]; rewrite ?append_nil, ?append_cons; simpl.
  - destruct s2; reflexivity.
  - rewrite IH. reflexivity.
Qed.

Lemma string_length_app (s1 s2 : string) :
  String.length (s1 ++ s2) = (String.length s1 + String.length s2)%nat.
Proof.
  induction s1 as [| a s1 IH]; rewrite ?append_nil, ?append_cons; simpl;
    [| rewrite IH]; reflexivity.
Qed.

Lemma IndexByteString_uint (d : Decimal.uint) (c : ascii) :
  separator c ->
  bytealg.IndexByteString (NilEmpty.string_of_uint d) c = None.
Proof.
  intros [-> | [-> | ->]]; induction d; simpl; rewrite ?IHd; reflexivity.
Qed.

Lemma IndexByteString_Itoa (i : Z) (c : ascii) :
  separator c -> bytealg.IndexByteString (strconv.Itoa i) c = None.
Proof.
  intros Hc. unfold strconv.Itoa, NilZero.string_of_int.
  assert (Hu : forall d, bytealg.IndexByteString
                           (NilZero.string_of_uint d) c = None).
  { intros d. unfold NilZero.string_of_uint.
    destruct d; try apply (IndexByteString_uint _ c Hc).
    destruct Hc as [-> | [-> | ->]]; reflexivity. }
  destruct (Z.to_int i) as [d | d]; [apply Hu |].
  simpl. rewrite Hu. destruct Hc as [-> | [-> | ->]]; reflexivity.
Qed.

Lemma of_uint_acc_ge (d : Decimal.uint) (acc : positive) :
  (acc <= Pos.of_uint_acc d acc)%positive.
Proof.
  revert acc. induction d; intros acc; simpl; [lia | ..];
    match goal with
    | |- (_ <= Pos.of_uint_acc _ ?a)%positive =>
        specialize (IHd a); lia
    end.
Qed.

Lemma ParseUint_loop_uint_acc (d : Decimal.uint) (acc : positive) :
  Z.pos acc <= strconv.maxUint64 ->
  strconv.ParseUint_loop (NilEmpty.string_of_uint d) (Z.pos acc)
  = if (Z.pos (Pos.of_uint_acc d acc) <=? strconv.maxUint64)%Z
    then (Z.pos (Pos.of_uint_acc d acc), None)
    else (strconv.maxUint64, Some strconv.ErrRange).
Proof.
  unfold strconv.maxUint64.
  revert acc. induction d; intros acc Hacc; simpl;
    [destruct (Z.leb_spec (Z.pos acc) (2 ^ 64 - 1)); [reflexivity | lia] | ..];
    unfold strconv.digit; simpl;
    match goal with
    | |- context [Pos.of_uint_acc d ?a] =>
        pose proof (of_uint_acc_ge d a) as Hge; specialize (IHd a);
        destruct (Z.leb_spec (Z.pos (Pos.of_uint_acc d a)) (2 ^ 64 - 1))
    end;
    change (strconv.maxUint64 / 10 + 1) with 1844674407370955162;
    unfold strconv.maxUint64;
    change ((2 ^ 64 - 1) / 10 + 1) with 1844674407370955162;
    (destruct (Z.geb_spec (Z.pos acc) 1844674407370955162); [try lia; try reflexivity |]);
    match goal with
    | |- context [(?n >? 2 ^ 64 - 1)%Z] =>
        destruct (Z.gtb_spec n (2 ^ 64 - 1)); [try lia; try reflexivity |];
        match goal with
        | |- strconv.ParseUint_loop _ ?m = _ =>
            match type of IHd with
            | Z.pos ?a <= _ -> _ => replace m with (Z.pos a) by lia
            end
        end; apply IHd; lia
    end.
Qed.

Lemma ParseUint_loop_uint (d : Decimal.uint) :
  strconv.ParseUint_loop (NilEmpty.string_of_uint d) 0
  = if (Z.of_N (Pos.of_uint d) <=? strconv.maxUint64)%Z
    then (Z.of_N (Pos.of_uint d), None)
    else (strconv.maxUint64, Some strconv.ErrRange).
Proof.
  induction d; simpl; [reflexivity | exact IHd | ..];
    unfold strconv.digit; simpl;
    apply (ParseUint_loop_uint_acc d); unfold strconv.maxUint64; lia.
Qed.

Lemma ParseUint_uint (d : Decimal.uint) :
  d <> Decimal.Nil ->
  strconv.ParseUint (NilEmpty.string_of_uint d)
  = if (Z.of_N (Pos.of_uint d) <=? strconv.maxUint64)%Z
    then (Z.of_N (Pos.of_uint d), None)
    else (strconv.maxUint64, Some strconv.ErrRange).
Proof.
  intros Hd. rewrite <- ParseUint_loop_uint.
  destruct d; [contradiction | ..]; reflexivity.
Qed.

Lemma string_of_uint_nonnil (d : Decimal.uint) :
  d <> Decimal.Nil ->
  NilZero.string_of_uint d = NilEmpty.string_of_uint d.
Proof. destruct d; [contradiction | ..]; reflexivity. Qed.

(** [Atoi] on the numeral of any number: the number when it fits 64 bits,
    else the nearest 64-bit value with a range error. *)
Lemma Atoi_Itoa_any (i : Z) :
  strconv.Atoi (strconv.Itoa i) =
    if (i >=? 2 ^ 63)%Z then (2 ^ 63 - 1, Some strconv.ErrRange)
    else if (i <? - 2 ^ 63)%Z then (- 2 ^ 63, Some strconv.ErrRange)
    else (i, None).
Proof.
  unfold strconv.Itoa. destruct i as [| p | p].
  - reflexivity.
  - simpl Z.to_int. simpl NilZero.string_of_int.
    pose proof (DecimalPos.Unsigned.to_uint_nonnil p) as Hn.
    pose proof (ParseUint_uint _ Hn) as HP.
    rewrite DecimalPos.Unsigned.of_to in HP. simpl Z.of_N in HP.
    rewrite string_of_uint_nonnil by exact Hn.
    unfold strconv.Atoi, strconv.ParseInt.
    destruct (NilEmpty.string_of_uint (Pos.to_uint p)) as [| c s'] eqn:E.
    { destruct (Pos.to_uint p); [contradiction | ..]; discriminate. }
    assert (Hc : Ascii.eqb c "+" = false /\ Ascii.eqb c "-" = false).
    { destruct (Pos.to_uint p); [contradiction | ..];
        injection E as <- _; split; reflexivity. }
    destruct Hc as [-> ->]. rewrite HP.
    unfold strconv.maxUint64.
    destruct (Z.leb_spec (Z.pos p) (2 ^ 64 - 1)).
    + destruct (Z.geb_spec (Z.pos p) (2 ^ 63)); simpl.
      * reflexivity.
      * destruct (Z.ltb_spec (Z.pos p) (- 2 ^ 63)); [lia | reflexivity].
    + destruct (Z.geb_spec (Z.pos p) (2 ^ 63)); [reflexivity | lia].
  - simpl Z.to_int. simpl NilZero.string_of_int.
    pose proof (DecimalPos.Unsigned.to_uint_nonnil p) as Hn.
    pose proof (ParseUint_uint _ Hn) as HP.
    rewrite DecimalPos.Unsigned.of_to in HP. simpl Z.of_N in HP.
    rewrite string_of_uint_nonnil by exact Hn.
    unfold strconv.Atoi, strconv.ParseInt.
    change (Ascii.eqb "-" "+") with false.
    change (Ascii.eqb "-" "-") with true. cbv iota.
    rewrite HP. unfold strconv.maxUint64.
    destruct (Z.geb_spec (Z.neg p) (2 ^ 63)); [lia |].
    destruct (Z.leb_spec (Z.pos p) (2 ^ 64 - 1)).
    + destruct (Z.gtb_spec (Z.pos p) (2 ^ 63));
        destruct (Z.ltb_spec (Z.neg p) (- 2 ^ 63)); simpl; try lia; reflexivity.
    + destruct (Z.ltb_spec (Z.neg p) (- 2 ^ 63)); [reflexivity | lia].
Qed.

Lemma Atoi_Itoa (i : Z) :
  - 2 ^ 63 <= i < 2 ^ 63 -> strconv.Atoi (strconv.Itoa i) = (i, None).
Proof.
  intros Hi. rewrite Atoi_Itoa_any.
  destruct (Z.geb_spec i (2 ^ 63)); [lia |].
  destruct (Z.ltb_spec i (- 2 ^ 63)); [lia | reflexivity].
Qed.

(** A [+] sign before the numeral of a number that is not negative. *)
Lemma Atoi_plus_Itoa (i : Z) :
  0 <= i < 2 ^ 63 ->
  strconv.Atoi (String "+" (strconv.Itoa i)) = (i, None).
Proof.
  intros Hi. pose proof (Atoi_Itoa i ltac:(lia)) as H.
  unfold strconv.Atoi, strconv.ParseInt in *.
  change (Ascii.eqb "+" "+") with true. cbv iota.
  destruct (strconv.Itoa i) as [| c s'] eqn:E; [discriminate |].
  assert (Hc : Ascii.eqb c "+" = false /\ Ascii.eqb c "-" = false).
  { unfold strconv.Itoa in E. destruct i as [| p | p]; [| | lia].
    - injection E as <- _. split; reflexivity.
    - simpl in E. destruct (Pos.to_uint p); simpl in E;
        try discriminate; injection E as <- _; split; reflexivity. }
  destruct Hc as [Hp Hm]. rewrite Hp, Hm in H. exact H.
Qed.

Lemma to_int32_small (x : Z) : -2 ^ 31 <= x < 2 ^ 31 -> to_int32 x = x.
Proof. intros H. unfold to_int32. rewrite Z.mod_small; lia. Qed.

(** ** [net.SplitHostPort] after [net.JoinHostPort] *)

Lemma slice_from_app_plus (s1 s2 : string) (k : nat) :
  slice_from (String.length s1 + k) (s1 ++ s2) = slice_from k s2.
Proof.
  induction s1 as [| a s1 IH]; rewrite ?append_nil, ?append_cons; simpl;
    auto.
Qed.

Lemma SplitHostPort_JoinHostPort (host port : string) :
  bracket_free host ->
  (forall c, separator c -> bytealg.IndexByteString port c = None) ->
  net.SplitHostPort (net.JoinHostPort host port) = Some (host, port).
Proof.
  intros [Hl Hr] Hport.
  pose proof (Hport ":"%char (or_introl eq_refl)) as Hpc.
  pose proof (Hport "["%char (or_intror (or_introl eq_refl))) as Hpl.
  pose proof (Hport "]"%char (or_intror (or_intror eq_refl))) as Hpr.
  unfold net.JoinHostPort.
  destruct (bytealg.IndexByteString host ":") as [n |] eqn:Hc.
  - (* a host with a colon is put in brackets *)
    unfold net.SplitHostPort.
    change ("[" ++ host ++ "]:" ++ port)
      with (String "[" (host ++ String "]" (String ":" port))).
    set (tl := String "]" (String ":" port)).
    assert (Hlast : bytealg.LastIndexByteString (String "[" (host ++ tl)) ":"
                    = Some (S (S (String.length host)))).
    { simpl. rewrite LastIndexByteString_app. simpl.
      rewrite (LastIndexByteString_None port) by exact Hpc. simpl.
      f_equal. lia. }
    rewrite Hlast.
    assert (Hend : bytealg.IndexByteString (String "[" (host ++ tl)) "]"
                   = Some (S (String.length host))).
    { simpl. rewrite IndexByteString_app, Hr. simpl. f_equal. lia. }
    change (net.first_is "[" (String "[" (host ++ tl))) with true.
    cbv iota. rewrite Hend.
    replace (S (S (String.length host)) =?
             String.length (String "[" (host ++ tl)))%nat with false.
    2:{ symmetry. apply Nat.eqb_neq. simpl.
        rewrite string_length_app. simpl. lia. }
    rewrite Nat.eqb_refl.
    change (slice_from 1 (String "[" (host ++ tl))) with (host ++ tl).
    rewrite IndexByteString_app, Hl. simpl bytealg.IndexByteString at 1.
    rewrite Hpl.
    change (slice_from (S (S (String.length host))) (String "[" (host ++ tl)))
      with (slice_from (S (String.length host)) (host ++ tl)).
    replace (S (String.length host)) with (String.length host + 1)%nat
      by lia.
    rewrite slice_from_app_plus. simpl slice_from at 1.
    simpl bytealg.IndexByteString at 1. rewrite Hpr.
    f_equal. f_equal.
    + unfold slice.
      replace (String.length host + 1 - 1)%nat with (String.length host)
        by lia.
      change (substring 1 (String.length host) (String "[" (host ++ tl)))
        with (substring 0 (String.length host) (host ++ tl)).
      apply substring_app.
    + change (slice_from (S (S (String.length host + 1)))
                         (String "[" (host ++ tl)))
        with (slice_from (S (String.length host + 1)) (host ++ tl)).
      replace (S (String.length host + 1)) with (String.length host + 2)%nat
        by lia.
      rewrite slice_from_app_plus. reflexivity.
  - (* a host without a colon *)
    unfold net.SplitHostPort.
    change (host ++ ":" ++ port) with (host ++ String ":" port).
    rewrite LastIndexByteString_app. simpl bytealg.LastIndexByteString at 1.
    rewrite (LastIndexByteString_None port) by exact Hpc. simpl.
    replace (net.first_is "[" (host ++ String ":" port)) with false.
    2:{ destruct host as [| a host']; [reflexivity |].
        rewrite append_cons. simpl. simpl in Hl.
        destruct (Ascii.eqb a "["); [discriminate | reflexivity]. }
    unfold slice. rewrite Nat.add_0_r, Nat.sub_0_r, substring_app, Hc.
    rewrite !IndexByteString_app, Hl, Hr. simpl bytealg.IndexByteString.
    rewrite Hpl, Hpr. simpl.
    change (match host ++ String ":" port with
            | "" => ""
            | String _ s' => slice_from (String.length host) s'
            end)
      with (slice_from (S (String.length host)) (host ++ String ":" port)).
    replace (S (String.length host)) with (String.length host + 1)%nat
      by lia.
    rewrite slice_from_app_plus. reflexivity.
Qed.

(** The port [start] resolves from the listener's address is the port the
    listener is bound to. *)
Lemma resolvePort_addrString (host : string) (port : Z) :
  bracket_free host -> - 2 ^ 63 <= port < 2 ^ 63 ->
  resolvePort (addrString host port) = port.
Proof.
  intros Hh Hp. unfold resolvePort, addrString.
  rewrite SplitHostPort_JoinHostPort;
    [| exact Hh | intros c Hc; apply IndexByteString_Itoa, Hc].
  rewrite Atoi_Itoa by exact Hp. reflexivity.
Qed.


(** ** The runs of [start]: what the traces show *)

Lemma trace_ok_past (svc : MeshService) (tr later past : list event)
    (e : event) :
  trace_ok svc tr -> tr = (later ++ e :: past)%list -> past_ok svc e past.
Proof.
  revert tr. induction later as [| e' later IH]; intros tr Htr ->.
  - exact (proj1 Htr).
  - exact (IH _ (proj2 Htr) eq_refl).
Qed.

Lemma reachable_past (svc : MeshService) (sched : list action) (s : state)
    (e : event) (past : list event) :
  run sched (init svc) = Some s -> past_of e (events s) past ->
  past_ok svc e past.
Proof.
  intros Hrun [later Hsplit].
  eapply trace_ok_past; [| exact Hsplit].
  apply (inv_trace svc). eapply reachable_inv. exact Hrun.
Qed.

(** An event that lies after [e] in the trace has [e] in its past. *)
Lemma later_event_past (tr later past : list event) (e e' : event) :
  tr = (later ++ e :: past)%list -> In e' later ->
  exists past', past_of e' tr past' /\ In e past'.
Proof.
  intros -> Hin. apply in_split in Hin as (l1 & l2 & ->).
  exists (l2 ++ e :: past)%list. split.
  - exists l1. rewrite <- app_assoc. reflexivity.
  - apply in_or_app. right. left. reflexivity.
Qed.

Lemma run_app (sched1 sched2 : list action) (s : state) :
  run (sched1 ++ sched2) s =
    match run sched1 s with
    | Some s' => run sched2 s'
    | None => None
    end.
Proof.
  revert s. induction sched1 as [| a sched1 IH]; intros s; simpl;
    [reflexivity |].
  destruct (step a s); [apply IH | reflexivity].
Qed.

(** *** Heartbeats and deregistration *)

(** An event found in the past of another has a past of its own, which is
    part of that past. *)
Lemma past_of_past (tr past : list event) (e e' : event) :
  past_of e tr past -> In e' past ->
  exists past', past_of e' tr past' /\ forall x, In x past' -> In x past.
Proof.
  intros [later ->] Hin. apply in_split in Hin as (l1 & l2 & ->).
  exists l2. split.
  - exists (later ++ e :: l1)%list. rewrite <- app_assoc. reflexivity.
  - intros x Hx. apply in_or_app. right. right. exact Hx.
Qed.

(** C1, counterexample. The shutdown is triggered by cancellation while a
    heartbeat call is in flight and a tick is waiting. When the call
    returns, the select of [heartbeatLoop] has both cases ready and may
    take the tick: [sendHeartbeat] calls [ReportHealth] after
    [client.Deregister] has returned. *)
Lemma cancel_heartbeat_after_deregister_counterexample :
  exists s, run sched_cancel_in_flight (init svc_example) = Some s /\
            In EvSelectDone (events s) /\
            heartbeat_after_deregister (events s).
Proof.
  eexists. split; [vm_compute; reflexivity |]. split.
  - simpl. tauto.
  - exists true, [],
      [EvLog LevelWarn "heartbeat failed";
       EvLog LevelInfo "deregistered from discovery"]. eexists.
    reflexivity.
Qed.

(** C1, amended. When the shutdown is triggered by cancellation, the
    context is cancelled before [deregister] makes its calls; the registry
    connection is closed only after the heartbeat loop has exited, and no
    heartbeat call begins after the close; every heartbeat call that
    begins after the cancellation carries the cancelled context. *)
Theorem cancel_shutdown_heartbeat_order
    (svc : MeshService) (sched : list action) (s : state) :
  run sched (init svc) = Some s ->
  In EvSelectDone (events s) ->
  (forall past, past_of EvDegraded (events s) past -> In EvCancel past) /\
  (forall past, past_of EvDeregister (events s) past -> In EvCancel past) /\
  (forall later past, events s = (later ++ EvConnClose :: past)%list ->
     (forall c, ~ In (EvHeartbeat c) later) /\
     (HeartbeatEnabled (opts svc) = true -> In EvHeartbeatExit past)) /\
  (forall later past c, events s = (later ++ EvCancel :: past)%list ->
     In (EvHeartbeat c) later -> c = true).
Proof.
  intros Hrun Hdone. pose proof (reachable_inv _ _ _ Hrun) as Hinv.
  assert (Hdeg : forall past, past_of EvDegraded (events s) past ->
                              In EvCancel past).
  { intros past Hp.
    destruct (reachable_past _ _ _ _ _ Hrun Hp) as [Hsel | Hsel]; simpl.
    - destruct (past_of_past _ _ _ _ Hp Hsel) as (past' & Hp' & Hsub).
      apply Hsub. exact (reachable_past _ _ _ _ _ Hrun Hp').
    - exfalso. apply (inv_select_one _ _ Hinv Hdone None).
      destruct Hp as [later ->]. apply in_or_app. right. right. exact Hsel. }
  split; [exact Hdeg |]. split; [| split].
  - intros past Hp. pose proof (reachable_past _ _ _ _ _ Hrun Hp) as Hd.
    simpl in Hd.
    destruct (past_of_past _ _ _ _ Hp Hd) as (past' & Hp' & Hsub).
    apply Hsub, Hdeg, Hp'.
  - intros later past Hsplit. split.
    + intros c Hc.
      destruct (later_event_past _ _ _ _ _ Hsplit Hc) as (past' & Hp' & Hin).
      pose proof (reachable_past _ _ _ _ _ Hrun Hp') as H. simpl in H.
      tauto.
    + pose proof (reachable_past _ _ _ EvConnClose past Hrun
                    (ex_intro _ later Hsplit)) as H.
      simpl in H. tauto.
  - intros later past c Hsplit Hc.
    destruct (later_event_past _ _ _ _ _ Hsplit Hc) as (past' & Hp' & Hin).
    pose proof (reachable_past _ _ _ _ _ Hrun Hp') as H. simpl in H.
    tauto.
Qed.

Lemma cancel_shutdown_heartbeat_order_witness :
  exists s, run (sched_cancel_in_flight ++ sched_finish) (init svc_example)
            = Some s /\
  (forall past, past_of EvDeregister (events s) past -> In EvCancel past).
Proof.
  eexists. split; [vm_compute; reflexivity |].
  refine (proj1 (proj2
            (cancel_shutdown_heartbeat_order svc_example
               (sched_cancel_in_flight ++ sched_finish) _ _ _))).
  - vm_compute. reflexivity.
  - simpl. tauto.
Defined.

(** *** A serving error *)

(** C2, the code at the failing input. [server.Serve] fails with an error
    other than [ErrServerClosed]: [start] returns that error at once. No
    degraded report, no [Deregister], no [server.Shutdown], no
    [grpcConn.Close]: the connection stays open, the heartbeat goroutine
    keeps running and goes on reporting HEALTHY, and [start] has no step
    left. *)
Theorem serve_error_returns_without_shutdown :
  exists s, run sched_serve_error (init svc_example) = Some s /\
    orch s = OReturned (Some accept_failed) /\
    ~ In EvDegraded (events s) /\ ~ In EvDeregister (events s) /\
    ~ In EvShutdown (events s) /\ ~ In EvConnClose (events s) /\
    grpcConn s = ConnOpen /\ hb s = HSelect /\ heartbeatDone s = false /\
    (forall a, step_start a s = None) /\
    (exists s', run [Tick; HbSelectTick] s = Some s' /\
                hd_error (events s') = Some (EvHeartbeat false)).
Proof.
  eexists. split; [vm_compute; reflexivity |].
  repeat split; try (simpl; intuition discriminate).
  - intros a. destruct a; reflexivity.
  - eexists. split; vm_compute; reflexivity.
Qed.

(** *** Registration *)

(** C7. When [client.Register] fails, [register] returns an error, [start]
    logs "registration failed" and goes on: it starts the heartbeat and
    the server goroutines and waits in its select, and the server answers
    requests. What [start] returns is a listen error, a connection error
    or the error [server.Serve] returned, never the error of [register]. *)
Theorem registration_failure_is_not_fatal
    (svc : MeshService) (sched : list action) (s : state) (actualPort : Z)
    (r : result pb.RegisterServiceResponse) :
  run sched (init svc) = Some s ->
  orch s = ORegister actualPort -> registers s = true ->
  register_fails r ->
  (exists e, snd (register (self s) r) = Some e /\ registration_error e) /\
  (exists s1, step (Register r) s = Some s1 /\
     events s1 = EvLog LevelError "registration failed"
                 :: EvRegister (registerRequest (self s) actualPort)
                 :: events s /\
     orch s1 = OGoHeartbeat /\
     exists s2, run [GoHeartbeat; GoServe; Request] s1 = Some s2 /\
       orch s2 = OSelect /\ srv s2 = SServe /\
       events s2 = EvAnswered :: events s1) /\
  (forall sched' s' e, run sched' (init svc) = Some s' ->
     orch s' = OReturned (Some e) ->
     (exists addr cause, e = ErrListen addr cause) \/
     (exists addr cause, e = ErrConnectDiscovery addr cause) \/
     In (EvServeReturned e) (events s')).
Proof.
  intros Hrun Hpc Hreg Hfail.
  pose proof (reachable_inv _ _ _ Hrun) as Hinv.
  assert (Hnp : panicked s = false).
  { destruct (panicked s) eqn:Hp; [| reflexivity].
    pose proof (inv_panicked _ _ Hinv Hp) as Hhb.
    pose proof (inv_hb_late _ _ Hinv) as Hl. rewrite Hpc in Hl.
    destruct (Hl ltac:(simpl; lia)) as [Hl' _]. congruence. }
  assert (Hsd : shuttingDown s = false).
  { apply (inv_serving _ _ Hinv). rewrite Hpc. simpl. lia. }
  split; [| split].
  - destruct Hfail as [[err ->] | (resp & -> & Hs)]; simpl.
    + eexists. split; [reflexivity | exact I].
    + rewrite Hs. eexists. split; [reflexivity | exact I].
  - unfold step. rewrite Hnp. simpl. unfold step_start. rewrite Hpc, Hreg.
    assert (Hr : exists e, register (self s) r = ([], Some e)).
    { destruct Hfail as [[err ->] | (resp & -> & Hs)]; simpl;
        [| rewrite Hs]; eexists; reflexivity. }
    destruct Hr as [e ->]. simpl.
    eexists. split; [reflexivity |]. split; [reflexivity |].
    split; [reflexivity |].
    unfold step. simpl. rewrite Hnp. unfold step_start. simpl.
    destruct (heartbeats _) eqn:Hhb; simpl; rewrite Hnp; simpl.
    all: unfold step_serve; simpl; rewrite ?Hsd, ?Hnp; simpl.
    all: eexists; split; [reflexivity |]; repeat split.
  - intros sched' s' e Hrun' Hret.
    pose proof (reachable_inv _ _ _ Hrun') as Hinv'.
    pose proof (inv_returned _ _ Hinv' _ Hret) as Hin.
    apply in_split in Hin as (l1 & l2 & Hsplit).
    pose proof (trace_ok_past _ _ _ _ _ (inv_trace _ _ Hinv') Hsplit) as H.
    simpl in H. rewrite Hsplit.
    destruct H as [H | [H | H]]; [left; exact H | right; left; exact H |].
    right. right. apply in_or_app. right. right. exact H.
Qed.

Lemma registration_failure_is_not_fatal_witness :
  run sched_dialed (init svc_example) = Some (state_after sched_dialed) /\
  exists s1, step (Register (Err refused)) (state_after sched_dialed)
             = Some s1 /\
             orch s1 = OGoHeartbeat.
Proof.
  assert (Hrun : run sched_dialed (init svc_example)
                 = Some (state_after sched_dialed))
    by (vm_compute; reflexivity).
  assert (Hpc : orch (state_after sched_dialed) = ORegister 43211)
    by (vm_compute; reflexivity).
  assert (Hreg : registers (state_after sched_dialed) = true)
    by (vm_compute; reflexivity).
  split; [exact Hrun |].
  destruct (registration_failure_is_not_fatal svc_example sched_dialed
              (state_after sched_dialed) 43211 (Err refused) Hrun Hpc Hreg
              (or_introl (ex_intro _ refused eq_refl)))
    as (_ & (s1 & Hs1 & _ & Hpc1 & _) & _).
  exists s1. split; [exact Hs1 | exact Hpc1].
Defined.

(** *** The heartbeat loop *)





(** *** The bound port *)

Lemma step_keeps_self (a : action) (s s' : state) :
  step a s = Some s' -> orch s <> OListen ->
  self s' = self s /\ orch s' <> OListen.
Proof.
  intros Hstep Hpc. step_destruct a Hstep; try (split; congruence).
  all: exfalso; apply Hpc; reflexivity.
Qed.

Lemma run_keeps_self (sched : list action) (s s' : state) :
  run sched s = Some s' -> orch s <> OListen -> self s' = self s.
Proof.
  revert s. induction sched as [| a sched IH]; intros s Hrun Hpc.
  - injection Hrun as <-. reflexivity.
  - simpl in Hrun. destruct (step a s) as [s1 |] eqn:Hs; [| discriminate].
    destruct (step_keeps_self _ _ _ Hs Hpc) as [H1 H2].
    rewrite (IH _ Hrun H2). exact H1.
Qed.

(** A run in which [net.Listen] gave a listener bound to [host] and
    [port] ends with that listener's address in [boundAddr]. *)
Lemma run_boundAddr (sched : list action) (s s' : state)
    (host : string) (port : Z) :
  run sched s = Some s' -> In (Listen (Ok (host, port))) sched ->
  boundAddr (self s') = addrString host port.
Proof.
  revert s. induction sched as [| a sched IH]; intros s Hrun Hin;
    [destruct Hin |].
  simpl in Hrun. destruct (step a s) as [s1 |] eqn:Hs; [| discriminate].
  destruct Hin as [-> | Hin]; [| exact (IH _ Hrun Hin)].
  unfold step in Hs. destruct (panicked s); [discriminate |].
  simpl in Hs. unfold step_start in Hs.
  destruct (orch s); try discriminate. injection Hs as <-.
  rewrite (run_keeps_self _ _ _ Hrun); [reflexivity | discriminate].
Qed.

(** C9. The listener the operating system binds has a port between 1 and
    65535, also when the configured port is 0. In every run, each
    [Register] request carries that port: [start] reads it back from the
    listener's address, and it is not 0. *)
Theorem register_advertises_bound_port
    (svc : MeshService) (sched : list action) (s : state)
    (host : string) (port : Z) (req : pb.RegisterServiceRequest) :
  run sched (init svc) = Some s ->
  In (Listen (Ok (host, port))) sched ->
  bracket_free host -> 0 < port < 65536 ->
  In (EvRegister req) (events s) ->
  resolvePort (boundAddr (self s)) = port /\
  pb.Port req = port /\ pb.Port req <> 0.
Proof.
  intros Hrun Hin Hhost Hport Hreq.
  pose proof (reachable_inv _ _ _ Hrun) as Hinv.
  pose proof (inv_register _ _ Hinv _ Hreq) as Hp.
  rewrite (run_boundAddr _ _ _ _ _ Hrun Hin) in *.
  rewrite resolvePort_addrString in * by (exact Hhost || lia).
  rewrite to_int32_small in Hp by lia.
  split; [reflexivity |]. split; [exact Hp | lia].
Qed.

Lemma register_advertises_bound_port_witness :
  run sched_heartbeat_in_flight (init svc_example)
    = Some (state_after sched_heartbeat_in_flight) /\
  pb.Port (registerRequest (self (state_after sched_dialed)) 43211) = 43211.
Proof.
  assert (Hrun : run sched_heartbeat_in_flight (init svc_example)
                 = Some (state_after sched_heartbeat_in_flight))
    by (vm_compute; reflexivity).
  split; [exact Hrun |].
  refine (proj1 (proj2 (register_advertises_bound_port svc_example
            sched_heartbeat_in_flight _ "0.0.0.0" 43211 _ Hrun _ _ _ _))).
  - simpl. tauto.
  - split; reflexivity.
  - lia.
  - vm_compute. tauto.
Defined.

(** ** The provided options: order and overriding *)

Lemma option_of_same_place (a b : setting) (o : ServiceOptions) :
  place_of a = place_of b ->
  option_of b (option_of a o) = option_of b o.
Proof.
  destruct a, b; intros H; try discriminate H; try reflexivity.
  injection H as ->. unfold option_of, WithMetadata, set_Metadata. simpl.
  rewrite insert_insert_eq. reflexivity.
Qed.

Lemma option_of_commute (a b : setting) (o : ServiceOptions) :
  place_of a <> place_of b ->
  option_of a (option_of b o) = option_of b (option_of a o).
Proof.
  destruct a, b; intros H; try reflexivity; try (exfalso; apply H; reflexivity).
  unfold option_of, WithMetadata, set_Metadata. simpl.
  rewrite insert_insert_ne; [reflexivity |]. intros ->. apply H. reflexivity.
Qed.

Lemma applyOptions_settings_app (xs ys : list setting)
    (o : ServiceOptions) :
  applyOptions (map option_of (xs ++ ys)) o =
  applyOptions (map option_of ys) (applyOptions (map option_of xs) o).
Proof. rewrite map_app. apply applyOptions_app. Qed.

Lemma applyOptions_settings_cons (x : setting) (xs : list setting)
    (o : ServiceOptions) :
  applyOptions (map option_of (x :: xs)) o =
  applyOptions (map option_of xs) (option_of x o).
Proof. reflexivity. Qed.

(** An option moves behind options that write other places. *)
Lemma option_of_moves_back (a : setting) (ys : list setting)
    (o : ServiceOptions) :
  Forall (fun y => place_of y <> place_of a) ys ->
  applyOptions (map option_of ys) (option_of a o) =
  option_of a (applyOptions (map option_of ys) o).
Proof.
  intros Hys. revert o.
  induction Hys as [| y ys Hy Hys IH]; intros o; [reflexivity |].
  rewrite !applyOptions_settings_cons.
  rewrite option_of_commute by exact Hy. apply IH.
Qed.

(** X1. An option makes every earlier option for the same field (for
    [WithMetadata]: the same key) without effect, wherever the earlier one
    stands, as long as the options between them write other places. *)
Theorem later_option_overrides_earlier
    (xs ys zs : list setting) (a b : setting) (o : ServiceOptions) :
  place_of a = place_of b ->
  Forall (fun y => place_of y <> place_of a) ys ->
  applyOptions (map option_of (xs ++ a :: ys ++ b :: zs)) o =
  applyOptions (map option_of (xs ++ ys ++ b :: zs)) o.
Proof.
  intros Hab Hys.
  rewrite !applyOptions_settings_app, applyOptions_settings_cons.
  rewrite !applyOptions_settings_app, !applyOptions_settings_cons.
  rewrite (option_of_moves_back a ys _ Hys).
  rewrite (option_of_same_place a b _ Hab). reflexivity.
Qed.

Lemma later_option_overrides_earlier_witness :
  applyOptions [WithPort 9090; WithAddress "127.0.0.1"; WithPort 0]
               DefaultOptions =
  applyOptions [WithAddress "127.0.0.1"; WithPort 0] DefaultOptions.
Proof.
  apply (later_option_overrides_earlier [] [SetAddress "127.0.0.1"] []
           (SetPort 9090) (SetPort 0) DefaultOptions).
  - reflexivity.
  - repeat constructor. discriminate.
Defined.

(** X2. Options that write different places commute: an option takes
    effect wherever it stands among options for other places. *)
Theorem options_for_other_places_commute
    (xs ys zs : list setting) (a : setting) (o : ServiceOptions) :
  Forall (fun y => place_of y <> place_of a) ys ->
  applyOptions (map option_of (xs ++ a :: ys ++ zs)) o =
  applyOptions (map option_of (xs ++ ys ++ a :: zs)) o.
Proof.
  intros Hys.
  rewrite !applyOptions_settings_app, applyOptions_settings_cons.
  rewrite !applyOptions_settings_app, !applyOptions_settings_cons.
  rewrite (option_of_moves_back a ys _ Hys). reflexivity.
Qed.

Lemma options_for_other_places_commute_witness :
  applyOptions [WithMetadata "env" "prod"; WithMetadata "version" "1.2.3";
                WithRoutingWeight 3] DefaultOptions =
  applyOptions [WithMetadata "version" "1.2.3"; WithRoutingWeight 3;
                WithMetadata "env" "prod"] DefaultOptions.
Proof.
  apply (options_for_other_places_commute []
           [SetMetadata "version" "1.2.3"; SetRoutingWeight 3] []
           (SetMetadata "env" "prod") DefaultOptions).
  repeat constructor; discriminate.
Defined.

(** X3. No provided option writes [HealthTimeout] or [UnhealthyThreshold]:
    whatever provided options are given, [New] returns a service with the
    defaults, a timeout of 5 seconds and a threshold of 3, and [register]
    sends that threshold. *)
Theorem provided_options_keep_timeout_and_threshold
    (now : Z) (xs : list setting) (svc : MeshService) (actualPort : Z) :
  New now (map option_of xs) = Ok svc ->
  HealthTimeout (opts svc) = 5 * Second /\
  UnhealthyThreshold (opts svc) = 3 /\
  pb.UnhealthyThreshold (pb.HealthCheck (registerRequest svc actualPort)) = 3.
Proof.
  intros HN. apply New_Ok in HN as [_ ->].
  assert (H : forall o, HealthTimeout (applyOptions (map option_of xs) o)
                        = HealthTimeout o /\
                        UnhealthyThreshold (applyOptions (map option_of xs) o)
                        = UnhealthyThreshold o).
  { induction xs as [| x xs IH]; intros o; [split; reflexivity |].
    rewrite applyOptions_settings_cons.
    destruct (IH (option_of x o)) as [-> ->]. destruct x; split; reflexivity. }
  destruct (H DefaultOptions) as [H1 H2].
  unfold registerRequest. simpl. rewrite H1, H2. repeat split.
Qed.

Lemma provided_options_keep_timeout_and_threshold_witness :
  UnhealthyThreshold
    (opts {| opts := resolved 0 (applyOptions
                       (map option_of [SetServiceName "svc"; SetPort 0])
                       DefaultOptions);
             boundAddr := "" |}) = 3.
Proof.
  exact (proj1 (proj2 (provided_options_keep_timeout_and_threshold 0
           [SetServiceName "svc"; SetPort 0] _ 0 eq_refl))).
Defined.

(** ** [New]: what it keeps and what it generates *)

Lemma Itoa_inj (i j : Z) : strconv.Itoa i = strconv.Itoa j -> i = j.
Proof.
  unfold strconv.Itoa. intros H.
  assert (Hn : forall z, Z.to_int z <> Decimal.Pos Decimal.Nil /\
                         Z.to_int z <> Decimal.Neg Decimal.Nil).
  { intros [| p | p]; simpl; split; try discriminate; intros E;
      injection E as E;
      exact (DecimalPos.Unsigned.to_uint_nonnil p E). }
  apply (f_equal NilZero.int_of_string) in H.
  rewrite !NilZero.isi in H by apply Hn.
  injection H as H. apply (f_equal Z.of_int) in H.
  rewrite !DecimalZ.of_to in H. exact H.
Qed.

Lemma append_cancel_l (s a b : string) : s ++ a = s ++ b -> a = b.
Proof.
  induction s as [| c s IH]; rewrite ?append_nil, ?append_cons; [auto |].
  intros H. injection H as H. auto.
Qed.

(** X4. [New] changes nothing an override has set: every field other than
    the three derived ones is as the overrides leave it, and a derived
    field that the overrides leave non-empty is kept as well. *)
Theorem New_keeps_what_overrides_set
    (now : Z) (fns : list Option) (svc : MeshService) :
  New now fns = Ok svc ->
  let o := applyOptions fns DefaultOptions in
  set_Routing
    (set_AdvertisedAddress (set_ServiceID (opts svc) (ServiceID o))
                           (AdvertisedAddress o))
    (set_HealthCheckEndpoint (Routing (opts svc))
                             (HealthCheckEndpoint (Routing o))) = o /\
  (ServiceID o <> "" -> ServiceID (opts svc) = ServiceID o) /\
  (AdvertisedAddress o <> "" ->
   AdvertisedAddress (opts svc) = AdvertisedAddress o) /\
  (HealthCheckEndpoint (Routing o) <> "" ->
   HealthCheckEndpoint (Routing (opts svc)) =
   HealthCheckEndpoint (Routing o)) /\
  boundAddr svc = "".
Proof.
  intros HN o. apply New_Ok in HN as [_ ->]. fold o.
  destruct o as [n i a adv p he hi ht ut hbe ar da md [sc hce st w]].
  unfold resolved; simpl. repeat split.
  - intros H. rewrite decide_False by exact H. reflexivity.
  - intros H. rewrite decide_False by exact H. reflexivity.
  - intros H. rewrite decide_False by exact H. reflexivity.
Qed.

Lemma New_keeps_what_overrides_set_witness :
  New 7 [WithServiceName "test-svc"; WithServiceID "svc-42";
         WithAdvertisedAddress "10.0.0.5"] <> Err ErrServiceNameRequired /\
  ServiceID (resolved 7 (applyOptions
     [WithServiceName "test-svc"; WithServiceID "svc-42";
      WithAdvertisedAddress "10.0.0.5"] DefaultOptions)) = "svc-42".
Proof.
  split; [discriminate |].
  refine (proj1 (proj2 (New_keeps_what_overrides_set 7
            [WithServiceName "test-svc"; WithServiceID "svc-42";
             WithAdvertisedAddress "10.0.0.5"]
            {| opts := _; boundAddr := "" |} eq_refl)) _).
  discriminate.
Defined.

Lemma resolved_ServiceID_nonempty (now : Z) (o : ServiceOptions) :
  ServiceName o <> "" -> ServiceID (resolved now o) <> "".
Proof.
  intros Hname. unfold resolved; simpl.
  case_decide as Hid; [| exact Hid].
  destruct (ServiceName o); [contradiction | discriminate].
Qed.

(** X5. A service that [New] returns has a name and an identifier, both
    non-empty; it has an advertised address unless its bind address is
    empty, and a routing health-check path unless its health endpoint is
    empty. *)
Theorem New_service_is_identified
    (now : Z) (fns : list Option) (svc : MeshService) :
  New now fns = Ok svc ->
  ServiceName (opts svc) <> "" /\ ServiceID (opts svc) <> "" /\
  (AdvertisedAddress (opts svc) = "" -> Address (opts svc) = "") /\
  (HealthCheckEndpoint (Routing (opts svc)) = "" ->
   HealthEndpoint (opts svc) = "").
Proof.
  intros HN. apply New_Ok in HN as [Hname ->].
  set (o := applyOptions fns DefaultOptions) in *.
  unfold resolved; simpl. repeat split.
  - exact Hname.
  - apply (resolved_ServiceID_nonempty now o Hname).
  - case_decide as H; [intros H'; exact H' | intros H'; contradiction].
  - case_decide as H; [intros H'; exact H' | intros H'; contradiction].
Qed.

Lemma New_service_is_identified_witness :
  ServiceID (resolved 7 (applyOptions [WithServiceName "test"]
                                      DefaultOptions)) <> "".
Proof.
  exact (proj1 (proj2 (New_service_is_identified 7 [WithServiceName "test"]
           {| opts := _; boundAddr := "" |} eq_refl))).
Defined.

(** X6. The identifier [New] generates is the name, a dash and the clock
    reading in decimal: two services built from the same overrides at
    different clock readings get different identifiers, while an
    identifier set by an override is the same at every clock reading. *)
Theorem New_generated_ids_differ
    (now1 now2 : Z) (fns : list Option) (svc1 svc2 : MeshService) :
  New now1 fns = Ok svc1 -> New now2 fns = Ok svc2 ->
  (ServiceID (applyOptions fns DefaultOptions) = "" ->
   now1 <> now2 -> ServiceID (opts svc1) <> ServiceID (opts svc2)) /\
  (ServiceID (applyOptions fns DefaultOptions) <> "" -> svc1 = svc2).
Proof.
  intros H1 H2. apply New_Ok in H1 as [_ ->]. apply New_Ok in H2 as [_ ->].
  set (o := applyOptions fns DefaultOptions). split.
  - intros Hid Hne. unfold resolved; simpl.
    rewrite !decide_True by exact Hid. intros H.
    apply append_cancel_l, append_cancel_l, Itoa_inj in H. contradiction.
  - intros Hid. unfold resolved.
    rewrite !(decide_False (P := ServiceID o = "")) by exact Hid.
    reflexivity.
Qed.

Lemma New_generated_ids_differ_witness :
  ServiceID (resolved 1 (applyOptions [WithServiceName "test"]
                                      DefaultOptions)) <>
  ServiceID (resolved 2 (applyOptions [WithServiceName "test"]
                                      DefaultOptions)).
Proof.
  refine (proj1 (New_generated_ids_differ 1 2 [WithServiceName "test"]
           {| opts := _; boundAddr := "" |}
           {| opts := _; boundAddr := "" |} eq_refl eq_refl) eq_refl _).
  discriminate.
Defined.

(** ** The metadata builder, further *)

(** X7. The keys of the built metadata are the user's keys and the three
    reserved keys, and [weight] when the routing weight is positive. *)
Theorem buildMetadata_keys (s : MeshService) :
  dom (buildMetadata s) =
    dom (Metadata (opts s)) ∪
    {["scheme"; "health_check_endpoint"; "lb_strategy"]} ∪
    (if decide (Weight (Routing (opts s)) > 0) then {["weight"]} else ∅).
Proof.
  unfold buildMetadata. rewrite copy_loop. cbv zeta.
  case_decide; rewrite ?dom_insert_L; set_solver.
Qed.

(** X8. A positive routing weight can be read back from the built
    metadata: the [weight] entry is its decimal numeral, which no other
    number has, and [strconv.Atoi] turns the entry into the weight, an
    [int] of 64 bits, without an error. *)
Theorem buildMetadata_weight_reads_back (s : MeshService) :
  Weight (Routing (opts s)) > 0 ->
  exists w,
    buildMetadata s !! "weight" = Some w /\
    w = strconv.Itoa (Weight (Routing (opts s))) /\
    (forall n, strconv.Itoa n = w -> n = Weight (Routing (opts s))) /\
    (Weight (Routing (opts s)) < 2 ^ 63 ->
     strconv.Atoi w = (Weight (Routing (opts s)), None)).
Proof.
  intros Hw. rewrite buildMetadata_lookup. cbv zeta.
  rewrite decide_True by reflexivity. rewrite decide_True by exact Hw.
  eexists. split; [reflexivity |]. split; [reflexivity |]. split.
  - intros n Hn. apply Itoa_inj, Hn.
  - intros Hr. apply Atoi_Itoa. lia.
Qed.

Lemma buildMetadata_weight_reads_back_witness :
  exists w,
    buildMetadata {| opts := applyOptions [WithRoutingWeight 3] DefaultOptions;
                     boundAddr := "" |} !! "weight" = Some w /\
    strconv.Atoi w = (3, None).
Proof.
  destruct (buildMetadata_weight_reads_back
              {| opts := applyOptions [WithRoutingWeight 3] DefaultOptions;
                 boundAddr := "" |}) as (w & Hl & _ & _ & Hr).
  - simpl. lia.
  - exists w. split; [exact Hl |]. apply Hr. simpl. lia.
Defined.

(** X9. From option to request: a metadata entry that the last
    [WithMetadata] for its key sets under a key that is not reserved is in
    the request [register] sends; under the keys [scheme],
    [health_check_endpoint] and [lb_strategy] the request carries the
    routing value instead. *)
Theorem WithMetadata_reaches_the_request
    (now : Z) (xs ys : list setting) (k v : string) (svc : MeshService)
    (actualPort : Z) :
  New now (map option_of (xs ++ SetMetadata k v :: ys)) = Ok svc ->
  Forall (fun y => place_of y <> PMetadata k) ys ->
  let m := pb.Metadata (registerRequest svc actualPort) in
  (~ reserved_key k -> m !! k = Some v) /\
  m !! "scheme" = Some (Scheme (Routing (opts svc))) /\
  m !! "health_check_endpoint" =
    Some (HealthCheckEndpoint (Routing (opts svc))) /\
  m !! "lb_strategy" = Some (Strategy (Routing (opts svc))) /\
  (forall k', m !! k' = None -> Metadata (opts svc) !! k' = None).
Proof.
  intros HN Hys m. subst m. unfold registerRequest. simpl.
  assert (Hk : Metadata (opts svc) !! k = Some v).
  { apply New_Ok in HN as [_ ->]. unfold resolved. simpl.
    rewrite applyOptions_settings_app, applyOptions_settings_cons.
    rewrite (option_of_moves_back (SetMetadata k v) ys _ Hys). simpl.
    apply lookup_insert_eq. }
  split; [| split; [| split; [| split]]];
    try (rewrite buildMetadata_lookup; reflexivity).
  - intros Hres. rewrite buildMetadata_lookup.
    unfold reserved_key in Hres. cbv zeta.
    repeat case_decide; subst; try tauto.
  - intros k'. rewrite buildMetadata_lookup. cbv zeta.
    repeat case_decide; subst; try discriminate; auto.
Qed.

Lemma WithMetadata_reaches_the_request_witness :
  pb.Metadata (registerRequest
     {| opts := resolved 0 (applyOptions
          (map option_of [SetServiceName "meta-test"; SetMetadata "env" "prod";
                          SetRoutingWeight 3]) DefaultOptions);
        boundAddr := "" |} 8080) !! "env" = Some "prod".
Proof.
  refine (proj1 (WithMetadata_reaches_the_request 0
            [SetServiceName "meta-test"] [SetRoutingWeight 3] "env" "prod"
            {| opts := _; boundAddr := "" |} 8080 eq_refl _) _).
  - repeat constructor. discriminate.
  - unfold reserved_key. intros [H | [H | [H | H]]]; discriminate.
Defined.

(** ** The runs of [start]: further invariants *)

Lemma inv_more_init (svc : MeshService) : inv_more svc (init svc).
Proof.
  split; simpl; try tauto; try lia; try (intuition (try discriminate; lia)).
Qed.

Section preservation_more.
Variable svc : MeshService.
Variables (a : action) (s s' : state).
Hypothesis Hinv : inv svc s.
Hypothesis Hmore : inv_more svc s.
Hypothesis Hstep : step a s = Some s'.

Lemma step_more_srv : (phase (orch s') <= 4)%nat -> srv s' = SNotStarted.
Proof.
  pose proof (more_srv _ _ Hmore).
  clear Hinv Hmore. step_destruct a Hstep; finish.
Qed.

Lemma step_more_conn : (phase (orch s') <= 1)%nat -> grpcConn s' = ConnNil.
Proof.
  pose proof (more_conn _ _ Hmore).
  clear Hinv Hmore. step_destruct a Hstep; finish.
Qed.

Lemma step_more_dereg_block :
  (7 <= phase (orch s') <= 9)%nat -> AutoRegister (opts svc) = true.
Proof.
  pose proof (inv_opts _ _ Hinv).
  pose proof (more_dereg_block _ _ Hmore).
  clear Hinv Hmore. step_destruct a Hstep; finish.
  all: bool_cases; arith_hyps; easy_finish.
Qed.

Lemma step_more_shutting :
  (11 <= phase (orch s') <= 12)%nat -> shuttingDown s' = true.
Proof.
  pose proof (more_shutting _ _ Hmore).
  clear Hinv Hmore. step_destruct a Hstep; finish.
Qed.

Lemma step_more_self : orch s' = OListen -> self s' = svc.
Proof.
  pose proof (more_self _ _ Hmore).
  clear Hinv Hmore. step_destruct a Hstep; finish.
Qed.

Lemma step_more_done :
  (4 <= phase (orch s') <= 12)%nat -> hb s' = HNotStarted ->
  heartbeatDone s' = true.
Proof.
  pose proof (more_done _ _ Hmore).
  clear Hinv Hmore. step_destruct a Hstep; finish.
Qed.

Lemma step_more_exited : hb s' = HReturned -> heartbeatDone s' = true.
Proof.
  pose proof (inv_hb_late _ _ Hinv).
  pose proof (more_exited _ _ Hmore).
  clear Hinv Hmore. step_destruct a Hstep; finish.
Qed.

Lemma step_more_no_heartbeat :
  HeartbeatEnabled (opts svc) = false ->
  hb s' = HNotStarted /\ forall c, ~ In (EvHeartbeat c) (events s').
Proof.
  pose proof (inv_opts _ _ Hinv).
  pose proof (more_no_heartbeat _ _ Hmore).
  clear Hinv Hmore. step_destruct a Hstep; finish.
  all: bool_cases; arith_hyps; easy_finish.
Qed.

Lemma step_more_no_register :
  AutoRegister (opts svc) = false ->
  (forall r, ~ In (EvRegister r) (events s')) /\
  ~ In EvDegraded (events s') /\ ~ In EvDeregister (events s').
Proof.
  pose proof (inv_opts _ _ Hinv).
  pose proof (more_no_register _ _ Hmore).
  pose proof (more_dereg_block _ _ Hmore).
  clear Hinv Hmore. step_destruct a Hstep; finish.
  all: bool_cases; arith_hyps; easy_finish.
Qed.

Lemma step_more_no_discovery :
  AutoRegister (opts svc) = false -> HeartbeatEnabled (opts svc) = false ->
  grpcConn s' = ConnNil /\ discoveryClient s' = false /\
  (forall t, ~ In (EvDial t) (events s')) /\
  ~ In EvConnClose (events s').
Proof.
  pose proof (inv_opts _ _ Hinv).
  pose proof (more_no_discovery _ _ Hmore).
  clear Hinv Hmore. step_destruct a Hstep; finish.
  all: bool_cases; arith_hyps; easy_finish.
Qed.

Lemma step_more_clean :
  orch s' = OReturned None ->
  In EvShutdown (events s') /\ heartbeatDone s' = true /\
  shuttingDown s' = true /\ grpcConn s' <> ConnOpen.
Proof.
  pose proof (inv_shutdown _ _ Hinv).
  pose proof (inv_await _ _ Hinv).
  pose proof (more_shutting _ _ Hmore).
  pose proof (more_clean _ _ Hmore).
  clear Hinv Hmore. step_destruct a Hstep; finish.
Qed.

Lemma step_more_once :
  (register_calls (events s') <= 1)%nat /\
  ((phase (orch s') <= 2)%nat -> register_calls (events s') = 0%nat).
Proof.
  pose proof (more_once _ _ Hmore).
  clear Hinv Hmore. step_destruct a Hstep; finish.
Qed.

Lemma step_more_registered :
  (3 <= phase (orch s') <= 12)%nat -> AutoRegister (opts svc) = true ->
  register_calls (events s') = 1%nat.
Proof.
  pose proof (inv_opts _ _ Hinv).
  pose proof (inv_client _ _ Hinv).
  pose proof (more_once _ _ Hmore).
  pose proof (more_registered _ _ Hmore).
  clear Hinv Hmore. step_destruct a Hstep; finish.
  all: bool_cases; arith_hyps; easy_finish.
Qed.

Lemma step_more_serving :
  srv s' = SServe -> AutoRegister (opts svc) = true ->
  register_calls (events s') = 1%nat.
Proof.
  pose proof (more_srv _ _ Hmore).
  pose proof (more_registered _ _ Hmore).
  pose proof (more_serving _ _ Hmore).
  clear Hinv Hmore. step_destruct a Hstep; finish.
Qed.

Lemma step_inv_more : inv_more svc s'.
Proof.
  split.
  - exact step_more_srv.
  - exact step_more_conn.
  - exact step_more_dereg_block.
  - exact step_more_shutting.
  - exact step_more_self.
  - exact step_more_done.
  - exact step_more_exited.
  - exact step_more_no_heartbeat.
  - exact step_more_no_register.
  - exact step_more_no_discovery.
  - exact step_more_clean.
  - exact step_more_registered.
  - exact step_more_serving.
  - exact step_more_once.
Qed.

End preservation_more.

Lemma run_inv_more (svc : MeshService) (sched : list action)
    (s s' : state) :
  inv svc s -> inv_more svc s -> run sched s = Some s' ->
  inv svc s' /\ inv_more svc s'.
Proof.
  revert s. induction sched as [| a sched IH]; intros s Hinv Hmore Hrun.
  - injection Hrun as <-. split; assumption.
  - simpl in Hrun. destruct (step a s) as [s1 |] eqn:Hs; [| discriminate].
    eapply IH; [| | exact Hrun].
    + eapply step_inv; eassumption.
    + eapply step_inv_more; eassumption.
Qed.

Lemma reachable_inv_more (svc : MeshService) (sched : list action)
    (s : state) :
  run sched (init svc) = Some s -> inv svc s /\ inv_more svc s.
Proof. apply run_inv_more; [apply inv_init | apply inv_more_init]. Qed.

(** ** The runs of [start]: leaving without the shutdown sequence *)

Lemma inv_abort_init (svc : MeshService) : inv_abort svc (init svc).
Proof.
  split; simpl; try tauto; try lia; try (intuition (try discriminate; lia)).
Qed.

Section preservation_abort.
Variable svc : MeshService.
Variables (a : action) (s s' : state).
Hypothesis Hinv : inv svc s.
Hypothesis Hmore : inv_more svc s.
Hypothesis Habort : inv_abort svc s.
Hypothesis Hstep : step a s = Some s'.

Lemma step_abort_early :
  (phase (orch s') <= 5)%nat ->
  ~ In EvDegraded (events s') /\ ~ In EvDeregister (events s') /\
  ~ In EvShutdown (events s') /\ ~ In EvConnClose (events s').
Proof.
  pose proof (abort_early _ _ Habort).
  clear Hinv Hmore Habort. step_destruct a Hstep; finish.
Qed.

Lemma step_abort_error :
  forall e, orch s' = OReturned (Some e) ->
  ~ In EvDegraded (events s') /\ ~ In EvDeregister (events s') /\
  ~ In EvShutdown (events s') /\ ~ In EvConnClose (events s').
Proof.
  pose proof (abort_early _ _ Habort).
  pose proof (abort_error _ _ Habort) as He.
  clear Hinv Hmore Habort. step_destruct a Hstep; finish.
  all: intros e' He'; try discriminate; try specialize (He _ He');
    simplify_eq; simpl; easy_finish.
Qed.

Lemma step_abort_selected :
  forall e, In (EvSelectServerErr (Some e)) (events s') ->
            orch s' = OReturned (Some e).
Proof.
  pose proof (inv_select_none _ _ Hinv) as Hn.
  pose proof (abort_selected _ _ Habort) as He.
  clear Hinv Hmore Habort. step_destruct a Hstep; arith_hyps.
  all: intros e' He'; simpl in He';
    repeat (destruct He' as [He' | He']; [try discriminate |]);
    try (specialize (He _ He'); simpl in He; try discriminate; try exact He).
  all: try (destruct Hn as [_ Hn]; exfalso; exact (Hn _ He')).
  all: simplify_eq; try reflexivity.
Qed.

Lemma step_abort_conn :
  (2 <= phase (orch s') <= 5)%nat -> AutoRegister (opts svc) = true ->
  grpcConn s' = ConnOpen.
Proof.
  pose proof (inv_opts _ _ Hinv).
  pose proof (abort_conn _ _ Habort).
  clear Hinv Hmore Habort. step_destruct a Hstep; finish.
  all: bool_cases; arith_hyps; easy_finish.
Qed.

Lemma step_abort_left :
  forall e, In (EvSelectServerErr (Some e)) (events s') ->
  AutoRegister (opts svc) = true ->
  grpcConn s' = ConnOpen /\ register_calls (events s') = 1%nat.
Proof.
  pose proof (inv_select_none _ _ Hinv) as Hn.
  pose proof (more_registered _ _ Hmore) as Hr.
  pose proof (abort_conn _ _ Habort) as Hc.
  pose proof (abort_selected _ _ Habort) as Hs.
  pose proof (abort_left _ _ Habort) as Hl.
  clear Hinv Hmore Habort. step_destruct a Hstep; arith_hyps.
  all: intros e' He' Har; simpl in He';
    repeat (destruct He' as [He' | He']; [try discriminate |]).
  all: try (specialize (Hs _ He'); simpl in Hs; discriminate).
  all: try (destruct Hn as [_ Hn]; exfalso; exact (Hn _ He')).
  all: try (exact (Hl _ He' Har)).
  all: try (split; [exact (Hc Har) | exact (Hr Har)]).
Qed.

Lemma step_inv_abort : inv_abort svc s'.
Proof.
  split.
  - exact step_abort_early.
  - exact step_abort_error.
  - exact step_abort_selected.
  - exact step_abort_conn.
  - exact step_abort_left.
Qed.

End preservation_abort.

Lemma run_inv_abort (svc : MeshService) (sched : list action)
    (s s' : state) :
  inv svc s -> inv_more svc s -> inv_abort svc s -> run sched s = Some s' ->
  inv svc s' /\ inv_more svc s' /\ inv_abort svc s'.
Proof.
  revert s. induction sched as [| a sched IH]; intros s Hinv Hmore Hab Hrun.
  - injection Hrun as <-. split; [assumption | split; assumption].
  - simpl in Hrun. destruct (step a s) as [s1 |] eqn:Hs; [| discriminate].
    eapply IH; [| | | exact Hrun].
    + eapply step_inv; eassumption.
    + eapply step_inv_more; eassumption.
    + eapply step_inv_abort; eassumption.
Qed.

Lemma reachable_inv_abort (svc : MeshService) (sched : list action)
    (s : state) :
  run sched (init svc) = Some s ->
  inv svc s /\ inv_more svc s /\ inv_abort svc s.
Proof.
  apply run_inv_abort;
    [apply inv_init | apply inv_more_init | apply inv_abort_init].
Qed.

(** C6. With auto-register enabled, in every run of [start] and every
    interleaving with the heartbeat goroutine: once [start] has left its
    select for the shutdown sequence it cannot skip [deregister]; it makes
    the degraded report, and whatever the report answers it calls
    [Deregister] next; by the time it shuts the server down, and when it
    has returned nil, both calls have been made, the report before
    [Deregister] and both before the connection is closed. But from every
    state in which the server is running, an error of [server.Serve] can
    reach the select, and a [start] whose select received such an error
    has returned it at once: it made its one [Register] call and neither
    the degraded report nor [Deregister]; the connection is still open and
    [start] has no step left. *)
Theorem shutdown_sequence_skipped_on_serve_error
    (svc : MeshService) (sched : list action) (s : state) :
  run sched (init svc) = Some s ->
  AutoRegister (opts svc) = true ->
  (orch s = ODeregister -> panicked s = false ->
     step Skip s = None /\
     exists s1, step DegradedCall s = Some s1 /\
       orch s1 = ODegradedWait /\ events s1 = EvDegraded :: events s) /\
  (orch s = ODegradedWait -> panicked s = false -> forall r,
     exists s1 s2, step (DegradedReturn r) s = Some s1 /\
       step DeregisterCall s1 = Some s2 /\
       orch s2 = ODeregisterWait /\ events s2 = EvDeregister :: events s) /\
  ((10 <= phase (orch s) <= 12)%nat \/ orch s = OReturned None ->
     In EvDegraded (events s) /\ In EvDeregister (events s) /\
     In EvDeregisterReturned (events s)) /\
  (forall past, past_of EvDeregister (events s) past -> In EvDegraded past) /\
  (forall past, past_of EvShutdown (events s) past ->
     In EvDegraded past /\ In EvDeregister past) /\
  (forall past, past_of EvConnClose (events s) past ->
     In EvDegraded past /\ In EvDeregister past /\
     In EvDeregisterReturned past) /\
  (orch s = OSelect -> srv s = SServe -> panicked s = false ->
   forall e, e <> ErrServerClosed ->
     exists s', run [ServeReturn e; SelectServerErr] s = Some s' /\
       In (EvSelectServerErr (Some e)) (events s')) /\
  (forall e, In (EvSelectServerErr (Some e)) (events s) ->
     orch s = OReturned (Some e) /\
     register_calls (events s) = 1%nat /\
     ~ In EvDegraded (events s) /\ ~ In EvDeregister (events s) /\
     ~ In EvShutdown (events s) /\ ~ In EvConnClose (events s) /\
     grpcConn s = ConnOpen /\
     (forall a, step_start a s = None)).
Proof.
  intros Hrun Har.
  destruct (reachable_inv_abort _ _ _ Hrun) as (Hinv & Hmore & Hab).
  assert (Hreg : (2 <= phase (orch s) <= 12)%nat -> registers s = true).
  { intros Hph. unfold registers.
    rewrite (inv_client _ _ Hinv Hph). unfold needsDiscovery.
    rewrite (inv_opts _ _ Hinv), Har. reflexivity. }
  assert (Hsd : In EvShutdown (events s) ->
                In EvDegraded (events s) /\ In EvDeregister (events s) /\
                In EvDeregisterReturned (events s)).
  { intros Hin. apply in_split in Hin as (l1 & l2 & Hsplit).
    pose proof (trace_ok_past _ _ _ _ _ (inv_trace _ _ Hinv) Hsplit) as H.
    simpl in H. specialize (H Har). rewrite Hsplit.
    repeat split; apply in_or_app; right; right; tauto. }
  split; [| split; [| split; [| split; [| split; [| split; [| split]]]]]].
  - intros Hpc Hnp. unfold step. rewrite Hnp. simpl. unfold step_start.
    rewrite Hpc. rewrite Hreg by (rewrite Hpc; simpl; lia).
    split; [reflexivity |]. eexists. split; [reflexivity |].
    split; reflexivity.
  - intros Hpc Hnp r. unfold step. rewrite Hnp. simpl. unfold step_start.
    rewrite Hpc. eexists. eexists. split; [reflexivity |]. simpl.
    rewrite Hnp. simpl. repeat split.
  - intros [Hph | Hret].
    + exact (inv_deregistered _ _ Hinv Hph Har).
    + apply Hsd. exact (proj1 (more_clean _ _ Hmore Hret)).
  - intros past Hp. exact (reachable_past _ _ _ _ _ Hrun Hp).
  - intros past Hp. pose proof (reachable_past _ _ _ _ _ Hrun Hp) as H.
    simpl in H. specialize (H Har). tauto.
  - intros past Hp. pose proof (reachable_past _ _ _ _ _ Hrun Hp) as H.
    simpl in H. destruct H as [H _]. exact (H Har).
  - intros Hpc Hsrv Hnp e He. simpl. unfold step. rewrite Hnp. simpl.
    unfold step_serve. rewrite Hsrv.
    destruct e; try (exfalso; apply He; reflexivity); simpl;
      rewrite Hnp; simpl; unfold step_start; simpl; rewrite Hpc; simpl;
      eexists; (split; [reflexivity |]); simpl; tauto.
  - intros e He. pose proof (abort_selected _ _ Hab _ He) as Hret.
    destruct (abort_error _ _ Hab _ Hret) as (N1 & N2 & N3 & N4).
    destruct (abort_left _ _ Hab _ He Har) as [Hc Hr].
    repeat split; try assumption.
    intros a. unfold step_start. rewrite Hret. destruct a; reflexivity.
Qed.

Lemma shutdown_sequence_skipped_on_serve_error_witness :
  run sched_serve_error (init svc_example)
    = Some (final svc_example sched_serve_error) /\
  AutoRegister (opts svc_example) = true /\
  orch (final svc_example sched_serve_error)
    = OReturned (Some accept_failed) /\
  ~ In EvDegraded (events (final svc_example sched_serve_error)) /\
  ~ In EvDeregister (events (final svc_example sched_serve_error)).
Proof.
  assert (Hrun : run sched_serve_error (init svc_example)
                 = Some (final svc_example sched_serve_error))
    by (vm_compute; reflexivity).
  assert (Hin : In (EvSelectServerErr (Some accept_failed))
                   (events (final svc_example sched_serve_error)))
    by (vm_compute; tauto).
  split; [exact Hrun |]. split; [reflexivity |].
  destruct (proj2 (proj2 (proj2 (proj2 (proj2 (proj2 (proj2
              (shutdown_sequence_skipped_on_serve_error svc_example
                 sched_serve_error _ Hrun eq_refl))))))) _ Hin)
    as (H1 & _ & H2 & H3 & _).
  split; [exact H1 |]. split; [exact H2 | exact H3].
Defined.

(** ** The runs of [start]: switches, failures, clean return *)

(** X10. The two switches work apart. With heartbeats disabled no
    heartbeat goroutine is started and no heartbeat call is ever made;
    with auto-register disabled [start] never calls [Register], the
    degraded report or [Deregister]. *)
Theorem disabled_features_make_no_calls
    (svc : MeshService) (sched : list action) (s : state) :
  run sched (init svc) = Some s ->
  (HeartbeatEnabled (opts svc) = false ->
   hb s = HNotStarted /\ forall c, ~ In (EvHeartbeat c) (events s)) /\
  (AutoRegister (opts svc) = false ->
   (forall req, ~ In (EvRegister req) (events s)) /\
   ~ In EvDegraded (events s) /\ ~ In EvDeregister (events s)).
Proof.
  intros Hrun. destruct (reachable_inv_more _ _ _ Hrun) as [_ Hm].
  split; [apply (more_no_heartbeat _ _ Hm) | apply (more_no_register _ _ Hm)].
Qed.

Lemma run_plain :
  run sched_plain (init svc_plain) = Some (final svc_plain sched_plain).
Proof. vm_compute. reflexivity. Qed.

Lemma disabled_features_make_no_calls_witness :
  run sched_plain (init svc_plain) = Some (final svc_plain sched_plain) /\
  hb (final svc_plain sched_plain) = HNotStarted.
Proof.
  split; [exact run_plain |].
  exact (proj1 (proj1 (disabled_features_make_no_calls svc_plain sched_plain
                         _ run_plain) eq_refl)).
Defined.

(** X11. With auto-register and heartbeats both disabled, [start] never
    connects to discovery: no [grpc.NewClient], no client, nothing to
    close. *)
Theorem no_discovery_no_connection
    (svc : MeshService) (sched : list action) (s : state) :
  run sched (init svc) = Some s ->
  AutoRegister (opts svc) = false -> HeartbeatEnabled (opts svc) = false ->
  grpcConn s = ConnNil /\ discoveryClient s = false /\
  (forall target, ~ In (EvDial target) (events s)) /\
  ~ In EvConnClose (events s) /\
  (forall r, step (Dial r) s = None).
Proof.
  intros Hrun Har Hhb. destruct (reachable_inv_more _ _ _ Hrun) as [Hi Hm].
  destruct (more_no_discovery _ _ Hm Har Hhb) as (H1 & H2 & H3 & H4).
  repeat split; try assumption.
  intros r. unfold step. destruct (panicked s); [reflexivity |]. simpl.
  unfold step_start. destruct (orch s); try reflexivity.
  unfold needsDiscovery. rewrite (inv_opts _ _ Hi), Har, Hhb. reflexivity.
Qed.

Lemma no_discovery_no_connection_witness :
  run sched_plain (init svc_plain) = Some (final svc_plain sched_plain) /\
  grpcConn (final svc_plain sched_plain) = ConnNil.
Proof.
  split; [exact run_plain |].
  exact (proj1 (no_discovery_no_connection svc_plain sched_plain _
                  run_plain eq_refl eq_refl)).
Defined.

(** X12. When [start] returns nil the whole shutdown has run:
    [server.Shutdown] has been called, the heartbeat goroutine is not
    running, the connection is not open, and afterwards no heartbeat is
    sent and [start] takes no further step. *)
Theorem clean_return_leaves_nothing_running
    (svc : MeshService) (sched : list action) (s : state) :
  run sched (init svc) = Some s ->
  orch s = OReturned None ->
  In EvShutdown (events s) /\
  (hb s = HNotStarted \/ hb s = HReturned) /\
  grpcConn s <> ConnOpen /\
  step HbSelectTick s = None /\
  (forall a, step_start a s = None).
Proof.
  intros Hrun Hret. destruct (reachable_inv_more _ _ _ Hrun) as [Hi Hm].
  destruct (more_clean _ _ Hm Hret) as (H1 & H2 & H3 & H4).
  assert (Hhb : hb s = HNotStarted \/ hb s = HReturned).
  { destruct (inv_hb_done _ _ Hi H2) as [H | [H _]]; auto. }
  repeat split; try assumption.
  - unfold step. destruct (panicked s); [reflexivity |]. simpl.
    unfold step_heartbeatLoop.
    destruct Hhb as [-> | ->]; reflexivity.
  - intros a. unfold step_start. rewrite Hret. destruct a; reflexivity.
Qed.

Lemma clean_return_leaves_nothing_running_witness :
  orch (final svc_plain sched_plain) = OReturned None /\
  In EvShutdown (events (final svc_plain sched_plain)).
Proof.
  assert (Hret : orch (final svc_plain sched_plain) = OReturned None)
    by (vm_compute; reflexivity).
  split; [exact Hret |].
  exact (proj1 (clean_return_leaves_nothing_running svc_plain sched_plain
                  _ run_plain Hret)).
Defined.

(** X13. [start] calls [Register] at most once, and with auto-register
    enabled it has called it exactly once by the time the server can answer
    a request. *)
Theorem register_called_once_before_serving
    (svc : MeshService) (sched : list action) (s : state) :
  run sched (init svc) = Some s ->
  (register_calls (events s) <= 1)%nat /\
  (AutoRegister (opts svc) = true -> is_Some (step Request s) ->
   register_calls (events s) = 1%nat).
Proof.
  intros Hrun. destruct (reachable_inv_more _ _ _ Hrun) as [Hi Hm].
  split; [apply (more_once _ _ Hm) |].
  intros Har [s' Hs']. apply (more_serving _ _ Hm); [| exact Har].
  unfold step in Hs'. destruct (panicked s); [discriminate |].
  simpl in Hs'. unfold step_serve in Hs'.
  destruct (srv s); try discriminate. reflexivity.
Qed.

Lemma run_cancel_in_flight :
  run sched_cancel_in_flight (init svc_example)
    = Some (final svc_example sched_cancel_in_flight).
Proof. vm_compute. reflexivity. Qed.

Lemma register_called_once_before_serving_witness :
  run sched_cancel_in_flight (init svc_example)
    = Some (final svc_example sched_cancel_in_flight) /\
  (register_calls (events (final svc_example sched_cancel_in_flight))
   <= 1)%nat.
Proof.
  split; [exact run_cancel_in_flight |].
  exact (proj1 (register_called_once_before_serving svc_example
                  sched_cancel_in_flight _ run_cancel_in_flight)).
Defined.

(** ** The runs of [start]: startup failures *)

(** Once [start] has returned, the goroutine that ran it does nothing
    more: goroutines that were not started stay so, and the connection and
    the service value stay as they are. *)
Lemma step_after_return (a : action) (s s' : state) (r : option error) :
  step a s = Some s' -> orch s = OReturned r ->
  orch s' = OReturned r /\
  (hb s = HNotStarted -> hb s' = HNotStarted) /\
  (srv s = SNotStarted -> srv s' = SNotStarted) /\
  grpcConn s' = grpcConn s /\ self s' = self s /\
  register_calls (events s') = register_calls (events s) /\
  (forall e, In e (events s) -> In e (events s')).
Proof.
  intros Hstep Hret. step_destruct a Hstep; try discriminate;
    repeat split; simpl; auto; try congruence.
Qed.

Lemma run_after_return (sched : list action) (s s' : state)
    (r : option error) :
  run sched s = Some s' -> orch s = OReturned r ->
  orch s' = OReturned r /\
  (hb s = HNotStarted -> hb s' = HNotStarted) /\
  (srv s = SNotStarted -> srv s' = SNotStarted) /\
  grpcConn s' = grpcConn s /\ self s' = self s /\
  register_calls (events s') = register_calls (events s) /\
  (forall e, In e (events s) -> In e (events s')).
Proof.
  revert s. induction sched as [| a sched IH]; intros s Hrun Hret.
  - injection Hrun as <-. repeat split; auto.
  - simpl in Hrun. destruct (step a s) as [s1 |] eqn:Hs; [| discriminate].
    destruct (step_after_return _ _ _ _ Hs Hret)
      as (H1 & H2 & H3 & H4 & H5 & H6 & H7).
    destruct (IH _ Hrun H1) as (I1 & I2 & I3 & I4 & I5 & I6 & I7).
    repeat split; auto; congruence.
Qed.

(** X14. When [net.Listen] fails, [start] returns the error wrapped with
    the address it tried, and that is all it does: no connection to
    discovery, no registration, no goroutine, no bound address. *)
Theorem listen_failure_aborts_start
    (svc : MeshService) (sched : list action) (s : state) (err : error) :
  run sched (init svc) = Some s ->
  In (Listen (Err err)) sched ->
  orch s = OReturned (Some (ErrListen (listenAddr svc) err)) /\
  hb s = HNotStarted /\ srv s = SNotStarted /\ grpcConn s = ConnNil /\
  self s = svc /\ register_calls (events s) = 0%nat.
Proof.
  intros Hrun Hin.
  assert (G : forall s0, inv svc s0 -> inv_more svc s0 ->
              run sched s0 = Some s ->
              orch s = OReturned (Some (ErrListen (listenAddr svc) err)) /\
              hb s = HNotStarted /\ srv s = SNotStarted /\
              grpcConn s = ConnNil /\ self s = svc /\
              register_calls (events s) = 0%nat).
  { clear Hrun. induction sched as [| a sched IH]; intros s0 Hi Hm Hrun;
      [destruct Hin |].
    simpl in Hrun. destruct (step a s0) as [s1 |] eqn:Hs; [| discriminate].
    destruct Hin as [-> | Hin].
    - unfold step in Hs. destruct (panicked s0); [discriminate |].
      simpl in Hs. unfold step_start in Hs.
      destruct (orch s0) eqn:Hpc; try discriminate. injection Hs as <-.
      destruct (run_after_return _ _ _ _ Hrun eq_refl)
        as (R1 & R2 & R3 & R4 & R5 & R6 & _).
      simpl in *.
      destruct (inv_hb_late _ _ Hi) as [Hhb _]; [rewrite Hpc; simpl; lia |].
      pose proof (more_srv _ _ Hm) as Hsrv. rewrite Hpc in Hsrv.
      pose proof (more_conn _ _ Hm) as Hc. rewrite Hpc in Hc.
      pose proof (more_self _ _ Hm Hpc) as Hself.
      destruct (more_once _ _ Hm) as [_ Hz]. rewrite Hpc in Hz.
      rewrite R1, R4, R5, R6, Hself.
      split; [reflexivity |]. split; [exact (R2 Hhb) |].
      split; [apply R3, Hsrv; simpl; lia |].
      split; [apply Hc; simpl; lia |].
      split; [reflexivity | apply Hz; simpl; lia].
    - apply (IH Hin s1); [eapply step_inv | eapply step_inv_more |];
        eassumption. }
  exact (G _ (inv_init svc) (inv_more_init svc) Hrun).
Qed.

Lemma listen_failure_aborts_start_witness :
  run [Listen (Err no_socket); Cancel] (init svc_example)
    = Some (final svc_example [Listen (Err no_socket); Cancel]) /\
  orch (final svc_example [Listen (Err no_socket); Cancel])
    = OReturned (Some (ErrListen "0.0.0.0:0" no_socket)).
Proof.
  assert (Hrun : run [Listen (Err no_socket); Cancel] (init svc_example)
                 = Some (final svc_example [Listen (Err no_socket); Cancel]))
    by (vm_compute; reflexivity).
  split; [exact Hrun |].
  exact (proj1 (listen_failure_aborts_start svc_example
                  [Listen (Err no_socket); Cancel] _ no_socket Hrun
                  (or_introl eq_refl))).
Defined.

(** X15. When [grpc.NewClient] fails, [start] closes the listener and
    returns the error wrapped with the discovery address: it registers
    nothing and starts no goroutine. *)
Theorem dial_failure_closes_listener
    (svc : MeshService) (sched : list action) (s : state) (err : error) :
  run sched (init svc) = Some s ->
  In (Dial (Some err)) sched ->
  orch s = OReturned (Some (ErrConnectDiscovery
                              (DiscoveryAddress (opts svc)) err)) /\
  In EvListenerClose (events s) /\
  hb s = HNotStarted /\ srv s = SNotStarted /\ grpcConn s = ConnNil /\
  register_calls (events s) = 0%nat.
Proof.
  intros Hrun Hin.
  assert (G : forall s0, inv svc s0 -> inv_more svc s0 ->
              run sched s0 = Some s ->
              orch s = OReturned (Some (ErrConnectDiscovery
                                          (DiscoveryAddress (opts svc)) err))
              /\ In EvListenerClose (events s) /\
              hb s = HNotStarted /\ srv s = SNotStarted /\
              grpcConn s = ConnNil /\ register_calls (events s) = 0%nat).
  { clear Hrun. induction sched as [| a sched IH]; intros s0 Hi Hm Hrun;
      [destruct Hin |].
    simpl in Hrun. destruct (step a s0) as [s1 |] eqn:Hs; [| discriminate].
    destruct Hin as [-> | Hin].
    - unfold step in Hs. destruct (panicked s0); [discriminate |].
      simpl in Hs. unfold step_start in Hs.
      destruct (orch s0) eqn:Hpc; try discriminate.
      destruct (needsDiscovery s0); [| discriminate]. injection Hs as <-.
      destruct (run_after_return _ _ _ _ Hrun eq_refl)
        as (R1 & R2 & R3 & R4 & R5 & R6 & R7).
      simpl in *.
      destruct (inv_hb_late _ _ Hi) as [Hhb _]; [rewrite Hpc; simpl; lia |].
      pose proof (more_srv _ _ Hm) as Hsrv. rewrite Hpc in Hsrv.
      pose proof (more_conn _ _ Hm) as Hc. rewrite Hpc in Hc.
      destruct (more_once _ _ Hm) as [_ Hz]. rewrite Hpc in Hz.
      rewrite R1, R4, R6, (inv_opts _ _ Hi).
      split; [reflexivity |].
      split; [apply R7; right; left; reflexivity |].
      split; [exact (R2 Hhb) |].
      split; [apply R3, Hsrv; simpl; lia |].
      split; [apply Hc; simpl; lia | apply Hz; simpl; lia].
    - apply (IH Hin s1); [eapply step_inv | eapply step_inv_more |];
        eassumption. }
  exact (G _ (inv_init svc) (inv_more_init svc) Hrun).
Qed.

Lemma dial_failure_closes_listener_witness :
  run [Listen (Ok ("0.0.0.0", 43211)); Dial (Some refused)]
      (init svc_example)
    = Some (final svc_example
              [Listen (Ok ("0.0.0.0", 43211)); Dial (Some refused)]) /\
  In EvListenerClose
     (events (final svc_example
                [Listen (Ok ("0.0.0.0", 43211)); Dial (Some refused)])).
Proof.
  assert (Hrun : run [Listen (Ok ("0.0.0.0", 43211)); Dial (Some refused)]
                     (init svc_example)
                 = Some (final svc_example
                     [Listen (Ok ("0.0.0.0", 43211)); Dial (Some refused)]))
    by (vm_compute; reflexivity).
  split; [exact Hrun |].
  exact (proj1 (proj2 (dial_failure_closes_listener svc_example
                  [Listen (Ok ("0.0.0.0", 43211)); Dial (Some refused)]
                  _ refused Hrun (or_intror (or_introl eq_refl))))).
Defined.

(** ** The runs of [start]: cancellation always gets through *)

(** X16. A service that waits in the select of [start] can always be shut
    down: after a cancellation there is a schedule, of at most eleven
    steps, on which the heartbeat loop exits and [start] runs its shutdown
    to the end and returns nil, whatever the heartbeat goroutine was doing.
    The ticker needs a positive interval when heartbeats are enabled. *)
Theorem cancellation_shuts_down
    (svc : MeshService) (sched : list action) (s : state) :
  run sched (init svc) = Some s ->
  orch s = OSelect -> panicked s = false ->
  (HeartbeatEnabled (opts svc) = true -> 0 < HealthInterval (opts svc)) ->
  exists s',
    run (Cancel :: heartbeat_finish (hb s) ++ start_finish (registers s)) s
      = Some s' /\
    orch s' = OReturned None /\
    (hb s' = HNotStarted \/ hb s' = HReturned) /\
    grpcConn s' <> ConnOpen.
Proof.
  intros Hrun Hpc Hnp Hpos.
  destruct (reachable_inv_more _ _ _ Hrun) as [Hi Hm].
  pose proof (inv_opts _ _ Hi) as Hopts.
  assert (Hd : hb s = HNotStarted \/ hb s = HReturned ->
               heartbeatDone s = true).
  { intros [H | H].
    - apply (more_done _ _ Hm); [rewrite Hpc; simpl; lia | exact H].
    - apply (more_exited _ _ Hm H). }
  assert (Hint : hb s = HNewTicker -> 0 < HealthInterval (opts (self s))).
  { intros H. rewrite Hopts. apply Hpos.
    destruct (HeartbeatEnabled (opts svc)) eqn:E; [reflexivity |].
    destruct (more_no_heartbeat _ _ Hm E) as [H' _]. congruence. }
  destruct (decide (HealthInterval (opts (self s)) <= 0)) as [Hle | Hgt]
    eqn:Hdec.
  - (* only a loop that has its ticker can be met with such an interval *)
    destruct (hb s) eqn:Hhb, (registers s) eqn:Hreg, (grpcConn s) eqn:Hconn;
      try (specialize (Hint eq_refl); lia);
      try (specialize (Hd ltac:(auto)));
      unfold heartbeat_finish, start_finish, run, step,
        step_start, step_heartbeatLoop, step_serve, registers in *;
      repeat (progress (simpl;
                rewrite ?Hnp, ?Hpc, ?Hhb, ?Hreg, ?Hd, ?Hconn, ?Hdec));
      eexists; (split; [reflexivity |]); simpl; rewrite ?Hhb, ?Hconn;
      (split; [reflexivity |]);
      (split; [first [left; reflexivity | right; reflexivity]
              | discriminate]).
  - destruct (hb s) eqn:Hhb, (registers s) eqn:Hreg, (grpcConn s) eqn:Hconn;
      try (specialize (Hd ltac:(auto)));
      unfold heartbeat_finish, start_finish, run, step,
        step_start, step_heartbeatLoop, step_serve, registers in *;
      repeat (progress (simpl;
                rewrite ?Hnp, ?Hpc, ?Hhb, ?Hreg, ?Hd, ?Hconn, ?Hdec));
      eexists; (split; [reflexivity |]); simpl; rewrite ?Hhb, ?Hconn;
      (split; [reflexivity |]);
      (split; [first [left; reflexivity | right; reflexivity]
              | discriminate]).
Qed.

Lemma cancellation_shuts_down_witness :
  run sched_heartbeat_in_flight (init svc_example)
    = Some (final svc_example sched_heartbeat_in_flight) /\
  exists s',
    run (Cancel :: [HbReportHealthReturn None; HbSelectDone] ++
           start_finish true)
        (final svc_example sched_heartbeat_in_flight) = Some s' /\
    orch s' = OReturned None.
Proof.
  assert (Hrun : run sched_heartbeat_in_flight (init svc_example)
                 = Some (final svc_example sched_heartbeat_in_flight))
    by (vm_compute; reflexivity).
  split; [exact Hrun |].
  destruct (cancellation_shuts_down svc_example sched_heartbeat_in_flight
              _ Hrun eq_refl eq_refl (fun _ => eq_refl))
    as (s' & Hs' & Hret & _).
  exists s'. split; [exact Hs' | exact Hret].
Defined.

(** ** [Addr] and [healthHandler] *)

Lemma step_self_unbound (a : action) (s s' : state) :
  step a s = Some s' ->
  (forall host port, a <> Listen (Ok (host, port))) ->
  self s' = self s.
Proof.
  intros Hstep Ha. step_destruct a Hstep; try reflexivity.
  exfalso. eapply Ha. reflexivity.
Qed.

Lemma run_self_unbound (sched : list action) (s s' : state) :
  run sched s = Some s' ->
  (forall host port, ~ In (Listen (Ok (host, port))) sched) ->
  self s' = self s.
Proof.
  revert s. induction sched as [| a sched IH]; intros s Hrun Hno.
  - injection Hrun as <-. reflexivity.
  - simpl in Hrun. destruct (step a s) as [s1 |] eqn:Hs; [| discriminate].
    rewrite (IH _ Hrun).
    + eapply step_self_unbound; [exact Hs |].
      intros h p ->. apply (Hno h p). left. reflexivity.
    + intros h p Hin. apply (Hno h p). right. exact Hin.
Qed.

Lemma listens_or_not (sched : list action) :
  (exists host port, In (Listen (Ok (host, port))) sched) \/
  (forall host port, ~ In (Listen (Ok (host, port))) sched).
Proof.
  induction sched as [| a sched [(h & p & Hin) | Hno]].
  - right. intros h p [].
  - left. exists h, p. right. exact Hin.
  - destruct a as [| | | [[h p] | e] | | | | | | | | | | | | | | | | | | |];
      try (right; intros h' p' [H | H]; [discriminate | exact (Hno _ _ H)]).
    left. exists h, p. left. reflexivity.
Qed.

Lemma JoinHostPort_nonempty (host port : string) :
  net.JoinHostPort host port <> "".
Proof.
  unfold net.JoinHostPort.
  destruct (bytealg.IndexByteString host ":"); [discriminate |].
  destruct host; discriminate.
Qed.

(** X17. For a service built by [New], [Addr] is empty until [net.Listen]
    has given a listener, and from then on it is the listener's address,
    also after [start] has returned: a caller can poll [Addr] to learn
    that the service is bound, and read the port, an [int] of 64 bits,
    from it. *)
Theorem Addr_tells_when_bound
    (now : Z) (fns : list Option) (svc : MeshService)
    (sched : list action) (s : state) :
  New now fns = Ok svc -> run sched (init svc) = Some s ->
  (Addr (self s) <> "" <->
   exists host port, In (Listen (Ok (host, port))) sched) /\
  (forall host port, In (Listen (Ok (host, port))) sched ->
     Addr (self s) = addrString host port /\
     (bracket_free host -> - 2 ^ 63 <= port < 2 ^ 63 ->
      resolvePort (Addr (self s)) = port)) /\
  opts (self s) = opts svc.
Proof.
  intros HN Hrun. apply New_Ok in HN as [_ HN].
  assert (Hb : boundAddr svc = "") by (rewrite HN; reflexivity).
  assert (Hbound : forall host port, In (Listen (Ok (host, port))) sched ->
                     Addr (self s) = addrString host port).
  { intros h p Hin. exact (run_boundAddr _ _ _ _ _ Hrun Hin). }
  split; [split | split].
  - intros Hne. destruct (listens_or_not sched) as [H | Hno]; [exact H |].
    exfalso. apply Hne. unfold Addr.
    rewrite (run_self_unbound _ _ _ Hrun Hno). exact Hb.
  - intros (h & p & Hin). rewrite (Hbound _ _ Hin).
    apply JoinHostPort_nonempty.
  - intros h p Hin. split; [exact (Hbound _ _ Hin) |].
    intros Hh Hp. rewrite (Hbound _ _ Hin).
    apply resolvePort_addrString; [exact Hh | exact Hp].
  - apply (inv_opts svc). eapply reachable_inv. exact Hrun.
Qed.

Lemma Addr_tells_when_bound_witness :
  Addr (self (final svc_plain sched_plain)) = "0.0.0.0:43211".
Proof.
  refine (proj1 (proj1 (proj2 (Addr_tells_when_bound 0
            [WithServiceName "health-test"; WithPort 0;
             WithAutoRegister false; WithHeartbeat false]
            svc_plain sched_plain _ eq_refl run_plain))
          "0.0.0.0" 43211 _)).
  left. reflexivity.
Defined.

(** X18. The body of the health answer of a service built by [New] has
    exactly the keys [status], [service] and [id]: the status is
    "Healthy", the service name is the one the overrides left and the
    identifier is the one [New] resolved, the override's or else the
    generated one; neither is empty. The body depends on nothing but the
    options: two services with the same options give the same body, and
    it is the same in every state of a run of [start]. *)
Theorem healthHandler_reports_identity
    (now : Z) (fns : list Option) (svc : MeshService) :
  New now fns = Ok svc ->
  let o := applyOptions fns DefaultOptions in
  dom (healthHandler svc) = {["status"; "service"; "id"]} /\
  healthHandler svc !! "status" = Some "Healthy" /\
  healthHandler svc !! "service" = Some (ServiceName o) /\
  ServiceName o <> "" /\
  healthHandler svc !! "id" = Some (ServiceID (opts svc)) /\
  ServiceID (opts svc) =
    (if decide (ServiceID o = "")
     then ServiceName o ++ "-" ++ strconv.Itoa now else ServiceID o) /\
  ServiceID (opts svc) <> "" /\
  (forall svc', opts svc' = opts svc ->
     healthHandler svc' = healthHandler svc) /\
  (forall sched s, run sched (init svc) = Some s ->
     healthHandler (self s) = healthHandler svc).
Proof.
  intros HN o. subst o. apply New_Ok in HN as [Hn ->].
  pose proof (resolved_ServiceID_nonempty now _ Hn) as Hi.
  split; [| split; [| split; [| split; [| split; [| split;
    [| split; [| split]]]]]]].
  - unfold healthHandler.
    rewrite !dom_insert_L, ?dom_singleton_L, ?dom_empty_L. set_solver.
  - reflexivity.
  - reflexivity.
  - exact Hn.
  - reflexivity.
  - reflexivity.
  - exact Hi.
  - intros svc' Ho. unfold healthHandler. rewrite Ho. reflexivity.
  - intros sched s Hrun. unfold healthHandler.
    rewrite (inv_opts _ _ (reachable_inv _ _ _ Hrun)). reflexivity.
Qed.

Lemma healthHandler_reports_identity_witness :
  healthHandler svc_plain !! "service" = Some "health-test" /\
  healthHandler svc_plain !! "id" = Some "health-test-0".
Proof.
  destruct (healthHandler_reports_identity 0
              [WithServiceName "health-test"; WithPort 0;
               WithAutoRegister false; WithHeartbeat false]
              svc_plain eq_refl) as (_ & _ & Hs & _ & Hi & _).
  split; [exact Hs | exact Hi].
Defined.

(** ** The example service *)

Lemma envOr_nonempty (env : gmap string string) (key fallback : string) :
  fallback <> "" -> envOr env key fallback <> "".
Proof.
  intros Hf. unfold envOr. cbv zeta. case_decide as H; [exact H | exact Hf].
Qed.

(** X19. [envOr] gives the variable when it is set and not empty, and the
    fallback otherwise, so with a non-empty fallback its result is never
    empty. *)
Theorem envOr_never_empty
    (env : gmap string string) (key fallback : string) :
  fallback <> "" ->
  envOr env key fallback <> "" /\
  (forall v, env !! key = Some v -> v <> "" -> envOr env key fallback = v) /\
  (env !! key = None \/ env !! key = Some "" ->
   envOr env key fallback = fallback).
Proof.
  intros Hf. unfold envOr, Getenv. cbv zeta. split; [| split].
  - apply envOr_nonempty, Hf.
  - intros v -> Hv. simpl. rewrite decide_True by exact Hv. reflexivity.
  - intros [-> | ->]; reflexivity.
Qed.

Lemma envOr_never_empty_witness :
  envOr {[ "MESH_SERVICE_NAME" := "" ]} "MESH_SERVICE_NAME" "hello-go"
    = "hello-go".
Proof.
  refine (proj2 (proj2 (envOr_never_empty
            {[ "MESH_SERVICE_NAME" := "" ]} "MESH_SERVICE_NAME" "hello-go"
            _)) _).
  - discriminate.
  - right. reflexivity.
Defined.

(** X20. [envInt] reads the variable as [strconv.Atoi] does. It gives the
    fallback when the variable is not set or is empty; the number when
    the variable holds the decimal numeral of an integer of 64 bits, with
    or without a [+] sign; and the fallback again when the numeral is of
    a number outside 64 bits, or when the value starts with a byte that is
    neither a sign nor a digit. *)
Theorem envInt_reads_decimal
    (env : gmap string string) (key : string) (fallback n : Z) :
  (env !! key = None \/ env !! key = Some "" ->
   envInt env key fallback = fallback) /\
  (- 2 ^ 63 <= n < 2 ^ 63 -> env !! key = Some (strconv.Itoa n) ->
   envInt env key fallback = n) /\
  (0 <= n < 2 ^ 63 -> env !! key = Some (String "+" (strconv.Itoa n)) ->
   envInt env key fallback = n) /\
  (n < - 2 ^ 63 \/ 2 ^ 63 <= n -> env !! key = Some (strconv.Itoa n) ->
   envInt env key fallback = fallback) /\
  (forall c v, env !! key = Some (String c v) ->
     c <> "+"%char -> c <> "-"%char -> strconv.digit c = None ->
     envInt env key fallback = fallback).
Proof.
  unfold envInt, Getenv. split; [| split; [| split; [| split]]].
  - intros [-> | ->]; reflexivity.
  - intros Hn ->. cbn [from_option id].
    rewrite Atoi_Itoa by exact Hn. reflexivity.
  - intros Hn ->. cbn [from_option id].
    rewrite Atoi_plus_Itoa by exact Hn. reflexivity.
  - intros Hn ->. cbn [from_option id]. rewrite Atoi_Itoa_any.
    destruct (Z.geb_spec n (2 ^ 63)); [reflexivity |].
    destruct (Z.ltb_spec n (- 2 ^ 63)); [reflexivity | lia].
  - intros c v -> Hp Hm Hd. cbn [from_option id].
    unfold strconv.Atoi, strconv.ParseInt.
    apply Ascii.eqb_neq in Hp, Hm. rewrite Hp, Hm.
    cbn [strconv.ParseUint strconv.ParseUint_loop]. rewrite Hd. reflexivity.
Qed.

Lemma envInt_reads_decimal_witness :
  envInt {[ "MESH_SERVICE_PORT" := "+8081" ]} "MESH_SERVICE_PORT" 9090
    = 8081 /\
  envInt {[ "MESH_SERVICE_PORT" := "9223372036854775808" ]}
    "MESH_SERVICE_PORT" 9090 = 9090.
Proof.
  split.
  - refine (proj1 (proj2 (proj2 (envInt_reads_decimal
              {[ "MESH_SERVICE_PORT" := "+8081" ]} "MESH_SERVICE_PORT"
              9090 8081))) _ _); [lia | reflexivity].
  - refine (proj1 (proj2 (proj2 (proj2 (envInt_reads_decimal
              {[ "MESH_SERVICE_PORT" := "9223372036854775808" ]}
              "MESH_SERVICE_PORT" 9090 (2 ^ 63))))) _ _);
      [lia | reflexivity].
Defined.

(** X21. Whatever the environment holds, the example builds its service:
    [New] cannot fail on the options of [main], because the name falls
    back to "hello-go". The service has the name, port and discovery
    address of the environment or their fallbacks, a generated identifier,
    registration and heartbeats enabled, and the metadata entry
    [version = 1.0.0] in what it registers. *)
Theorem example_service_is_always_built
    (now : Z) (env : gmap string string) :
  exists svc,
    New now (main_options env) = Ok svc /\
    ServiceName (opts svc) = envOr env "MESH_SERVICE_NAME" "hello-go" /\
    ServiceName (opts svc) <> "" /\
    ServiceID (opts svc) =
      ServiceName (opts svc) ++ "-" ++ strconv.Itoa now /\
    Port (opts svc) = envInt env "MESH_SERVICE_PORT" 9090 /\
    DiscoveryAddress (opts svc) =
      envOr env "MESH_DISCOVERY_ADDRESS" "localhost:8080" /\
    AutoRegister (opts svc) = true /\ HeartbeatEnabled (opts svc) = true /\
    buildMetadata svc !! "version" = Some "1.0.0" /\
    buildMetadata svc !! "lb_strategy" = Some "RoundRobin".
Proof.
  assert (Hname : envOr env "MESH_SERVICE_NAME" "hello-go" <> "").
  { apply envOr_nonempty. discriminate. }
  unfold New, main_options. cbv zeta.
  unfold applyOptions. simpl fold_left.
  rewrite decide_False by exact Hname.
  eexists. split; [reflexivity |].
  repeat split; try exact Hname.
  all: rewrite buildMetadata_lookup; reflexivity.
Qed.

(** ** [register] and [deregister], further *)

(** X22. What a service built by [New] registers: its name, and the
    identifier [New] resolved, the override's or else the generated one,
    both non-empty; the advertised address, which is the bind address
    unless an override set another; a port in the range of [int32]
    unchanged; and one health path in two places, the probe endpoint and
    the metadata entry, which agree unless an override set the routing
    path apart. *)
Theorem register_request_of_New
    (now : Z) (fns : list Option) (svc : MeshService) (actualPort : Z) :
  New now fns = Ok svc ->
  let o := applyOptions fns DefaultOptions in
  let req := registerRequest svc actualPort in
  pb.ServiceName req = ServiceName o /\ pb.ServiceName req <> "" /\
  pb.ServiceId req = ServiceID (opts svc) /\
  pb.ServiceId req =
    (if decide (ServiceID o = "")
     then ServiceName o ++ "-" ++ strconv.Itoa now else ServiceID o) /\
  pb.ServiceId req <> "" /\
  pb.Address req = (if decide (AdvertisedAddress o = "")
                    then Address o else AdvertisedAddress o) /\
  (- 2 ^ 31 <= actualPort < 2 ^ 31 -> pb.Port req = actualPort) /\
  pb.Endpoint (pb.HealthCheck req) = HealthEndpoint o /\
  (HealthCheckEndpoint (Routing o) = "" ->
   pb.Metadata req !! "health_check_endpoint" =
   Some (pb.Endpoint (pb.HealthCheck req))).
Proof.
  intros HN o req. subst o req. apply New_Ok in HN as [Hn ->].
  pose proof (resolved_ServiceID_nonempty now _ Hn) as Hi.
  unfold registerRequest. simpl in *.
  split; [reflexivity |]. split; [exact Hn |].
  split; [reflexivity |]. split; [reflexivity |]. split; [exact Hi |].
  split; [reflexivity |]. split; [apply to_int32_small |].
  split; [reflexivity |].
  intros Hh. rewrite buildMetadata_lookup. simpl.
  rewrite decide_True by exact Hh. reflexivity.
Qed.

Lemma register_request_of_New_witness :
  pb.ServiceId (registerRequest
    {| opts := resolved 7 (applyOptions
                 [WithServiceName "test"; WithAddress "10.0.0.1"]
                 DefaultOptions);
       boundAddr := "" |} 8080) = "test-7" /\
  pb.Address (registerRequest
    {| opts := resolved 7 (applyOptions
                 [WithServiceName "test"; WithAddress "10.0.0.1"]
                 DefaultOptions);
       boundAddr := "" |} 8080) = "10.0.0.1".
Proof.
  destruct (register_request_of_New 7
              [WithServiceName "test"; WithAddress "10.0.0.1"]
              {| opts := _; boundAddr := "" |} 8080 eq_refl)
    as (_ & _ & _ & Hid & _ & Haddr & _).
  split; [exact Hid | exact Haddr].
Defined.

(** X23. The two calls of [deregister] tolerate failure: whatever the
    degraded report answers, nothing is logged and [Deregister] is called
    next; whatever [Deregister] answers, [start] goes on to
    [server.Shutdown]; a failure of [Deregister] is logged as an error, a
    removal as information, and an answer without removal not at all. *)
Theorem deregister_tolerates_failures
    (svc : MeshService) (sched : list action) (s : state) :
  run sched (init svc) = Some s -> panicked s = false ->
  (orch s = ODegradedWait -> forall r,
     exists s1 s2, step (DegradedReturn r) s = Some s1 /\
       events s1 = events s /\
       step DeregisterCall s1 = Some s2 /\
       events s2 = EvDeregister :: events s) /\
  (orch s = ODeregisterWait -> forall r,
     exists s1, step (DeregisterReturn r) s = Some s1 /\
       orch s1 = OShutdown /\
       events s1 =
         match r with
         | Err _ => EvLog LevelError "deregistration failed"
                    :: EvDeregisterReturned :: events s
         | Ok true => EvLog LevelInfo "deregistered from discovery"
                      :: EvDeregisterReturned :: events s
         | Ok false => EvDeregisterReturned :: events s
         end /\
       is_Some (step Shutdown s1)).
Proof.
  intros Hrun Hnp. split.
  - intros Hpc r. unfold step. rewrite Hnp. simpl. unfold step_start.
    rewrite Hpc. eexists. eexists. split; [reflexivity |]. simpl.
    rewrite Hnp. simpl. repeat split.
  - intros Hpc r. unfold step. rewrite Hnp. simpl. unfold step_start.
    rewrite Hpc. eexists. split; [reflexivity |]. simpl.
    split; [reflexivity |]. split.
    + destruct r as [[] | err]; reflexivity.
    + unfold step. destruct r as [[] | err]; simpl; rewrite Hnp; simpl;
        eexists; reflexivity.
Qed.

Lemma deregister_tolerates_failures_witness :
  run sched_degraded_wait (init svc_example)
    = Some (final svc_example sched_degraded_wait) /\
  exists s1 s2,
    step (DegradedReturn (Some refused))
         (final svc_example sched_degraded_wait) = Some s1 /\
    step DeregisterCall s1 = Some s2.
Proof.
  assert (Hrun : run sched_degraded_wait (init svc_example)
                 = Some (final svc_example sched_degraded_wait))
    by (vm_compute; reflexivity).
  split; [exact Hrun |].
  destruct (proj1 (deregister_tolerates_failures svc_example
              sched_degraded_wait _ Hrun eq_refl) eq_refl (Some refused))
    as (s1 & s2 & H1 & _ & H2 & _).
  exists s1, s2. split; [exact H1 | exact H2].
Defined.
